(** * gonka-proxy: the request-signing client and the chat-completions handler

    A shallow embedding of [app/gonka_client.py], [app/auth.py] and
    [app/main.py].

    Conventions of the embedding.
    - A Python [bytes] value is a [list byte]; a Python [str] is the Rocq
      [string] of its UTF-8 bytes, so [s.encode('utf-8')] is
      [list_byte_of_string s], and the ASCII operations of the source
      ([startswith('0x')], [[2:]], [rstrip('/')]) act on it as they do on
      the Python value.
    - A Python [int] is a [Z]: no wrap-around anywhere.
    - A call that may raise returns [exn + A]; [inl e] is the raised
      exception.
    - Clocks, the upstream service and the log are fields of an explicit
      [World] threaded through the effectful functions.
    - The third-party signing primitive ([ecdsa]'s
      [SigningKey.sign_deterministic]) and Python's [json] codec are Section
      variables; everything else is defined here. *)

From Stdlib Require Import ZArith List String Ascii Lia Bool Sorted.
From Stdlib Require Import DecimalString DecimalZ DecimalPos Decimal DecimalFacts Floats.
From Stdlib.Strings Require Import Byte.
From stdpp Require Import base gmap strings.
Import ListNotations.

#[local] Unset Default Proof Using.
#[local] Set Warnings "-register-all".
#[local] Open Scope string_scope.
#[local] Open Scope Z_scope.
#[local] Open Scope list_scope.

(* ================================================================== *)
(** * Python runtime: exceptions, bytes, integers, strings            *)
(* ================================================================== *)

Definition bytes : Type := list byte.

(** The exception classes that occur in the modelled code.  An
    [HTTPStatusError] carries its response: the status code and the body
    when it has been read ([None]: reading [e.response.text] fails). *)
Inductive exn : Type :=
| ValueError (msg : string)
| MalformedPointError (msg : string)
| OverflowError
| UnicodeDecodeError
| JSONDecodeError
| AttributeError
| TypeError
| TransportError (detail : string)
| HTTPStatusError (status_code : Z) (content : option bytes)
| HTTPException (status_code : Z) (detail : string)
| CancelledError.

(** [isinstance(e, Exception)]: everything above derives from [Exception]
    except [asyncio.CancelledError], a [BaseException]. *)
Definition is_Exception (e : exn) : bool :=
  match e with
  | CancelledError => false
  | _ => true
  end.

(** [isinstance(e, httpx.HTTPStatusError)]. *)
Definition is_HTTPStatusError (e : exn) : bool :=
  match e with
  | HTTPStatusError _ _ => true
  | _ => false
  end.

Definition result (A : Type) : Type := (exn + A)%type.

Definition is_ok {A : Type} (r : result A) : bool :=
  match r with
  | inr _ => true
  | inl _ => false
  end.

Definition byte_to_Z (b : byte) : Z := Z.of_N (Byte.to_N b).

Definition byte_of_Z (z : Z) : byte :=
  match Byte.of_N (Z.to_N z) with
  | Some b => b
  | None => x00
  end.

(** [int.from_bytes(b, 'big')]. *)
Definition int_from_bytes (b : bytes) : Z :=
  fold_left (fun acc x => acc * 256 + byte_to_Z x) b 0.

(** The [len] low base-256 digits of [n], most significant first. *)
Fixpoint be_bytes (len : nat) (n : Z) : bytes :=
  match len with
  | O => []
  | S k => be_bytes k (n / 256) ++ [byte_of_Z (n mod 256)]
  end.

(** [n.to_bytes(len, 'big')]: unsigned, [OverflowError] on a negative
    integer and on one that does not fit. *)
Definition int_to_bytes (n : Z) (len : nat) : result bytes :=
  if n <? 0 then inl OverflowError
  else if 256 ^ Z.of_nat len <=? n then inl OverflowError
  else inr (be_bytes len n).

(** [str(n)] on an [int]: decimal digits, a leading ["-"] when negative. *)
Definition py_str (n : Z) : string := NilZero.string_of_int (Z.to_int n).

(** [s.encode('utf-8')]. *)
Definition str_encode (s : string) : bytes := list_byte_of_string s.

Definition is_continuation (b : byte) : bool :=
  let n := Byte.to_N b in ((128 <=? n) && (n <=? 191))%N.

(** The well-formed UTF-8 byte sequences (Unicode table 3-7), which is
    what the strict decoder accepts. *)
Fixpoint utf8_valid (bs : bytes) : bool :=
  match bs with
  | [] => true
  | b0 :: t0 =>
    let n0 := Byte.to_N b0 in
    if (n0 <? 128)%N then utf8_valid t0
    else
      match t0 with
      | [] => false
      | b1 :: t1 =>
        let n1 := Byte.to_N b1 in
        if ((194 <=? n0) && (n0 <=? 223))%N then is_continuation b1 && utf8_valid t1
        else
          match t1 with
          | [] => false
          | b2 :: t2 =>
            if ((224 <=? n0) && (n0 <=? 239))%N then
              (if (n0 =? 224)%N then ((160 <=? n1) && (n1 <=? 191))%N
               else if (n0 =? 237)%N then ((128 <=? n1) && (n1 <=? 159))%N
               else is_continuation b1)
              && is_continuation b2 && utf8_valid t2
            else
              match t2 with
              | [] => false
              | b3 :: t3 =>
                if ((240 <=? n0) && (n0 <=? 244))%N then
                  (if (n0 =? 240)%N then ((144 <=? n1) && (n1 <=? 191))%N
                   else if (n0 =? 244)%N then ((128 <=? n1) && (n1 <=? 143))%N
                   else is_continuation b1)
                  && is_continuation b2 && is_continuation b3 && utf8_valid t3
                else false
              end
          end
      end
  end.

(** [b.decode('utf-8')]. *)
Definition bytes_decode (b : bytes) : result string :=
  if utf8_valid b then inr (string_of_list_byte b) else inl UnicodeDecodeError.

(** [s.startswith(p)]. *)
Definition str_startswith (s p : string) : bool := String.prefix p s.

(** [s[n:]]. *)
Fixpoint str_drop (n : nat) (s : string) : string :=
  match n, s with
  | O, _ => s
  | S k, EmptyString => EmptyString
  | S k, String _ t => str_drop k t
  end.

(** [s.rstrip(c)] for a one-character set. *)
Fixpoint str_rstrip (c : ascii) (s : string) : string :=
  match s with
  | EmptyString => EmptyString
  | String a t =>
    match str_rstrip c t with
    | EmptyString => if Ascii.eqb a c then EmptyString else String a EmptyString
    | t' => String a t'
    end
  end.

(** [', '.join(l)]. *)
Fixpoint str_join (sep : string) (l : list string) : string :=
  match l with
  | [] => ""
  | [x] => x
  | x :: t => x +:+ sep +:+ str_join sep t
  end.

(** ** [bytes.fromhex] *)

(** ASCII white space, which [bytes.fromhex] skips between bytes. *)
Definition is_space (c : ascii) : bool :=
  let n := N_of_ascii c in ((n =? 32) || ((9 <=? n) && (n <=? 13)))%N.

Definition hex_digit_value (c : ascii) : option Z :=
  let n := Z.of_N (N_of_ascii c) in
  if (48 <=? n) && (n <=? 57) then Some (n - 48)
  else if (97 <=? n) && (n <=? 102) then Some (n - 87)
  else if (65 <=? n) && (n <=? 70) then Some (n - 55)
  else None.

Definition fromhex_error : exn :=
  ValueError "non-hexadecimal number found in fromhex() arg".

(** Two hexadecimal digits per byte; white space is skipped before a
    byte, never inside one. *)
Fixpoint bytes_fromhex (s : string) : result bytes :=
  match s with
  | EmptyString => inr []
  | String c rest =>
    if is_space c then bytes_fromhex rest
    else
      match hex_digit_value c with
      | None => inl fromhex_error
      | Some top =>
        match rest with
        | EmptyString => inl fromhex_error
        | String c' rest' =>
          match hex_digit_value c' with
          | None => inl fromhex_error
          | Some bot =>
            match bytes_fromhex rest' with
            | inl e => inl e
            | inr bs => inr (byte_of_Z (16 * top + bot) :: bs)
            end
          end
        end
      end
  end.

(** ** [base64.b64encode] *)

Definition b64_alphabet : list byte :=
  list_byte_of_string
    "ABCDEFGHIJKLMNOPQRSTUVWXYZabcdefghijklmnopqrstuvwxyz0123456789+/".

Definition b64_pad : byte := "="%byte.

Definition b64_char (sextet : Z) : byte :=
  nth (Z.to_nat sextet) b64_alphabet b64_pad.

Fixpoint b64encode (bs : bytes) : bytes :=
  match bs with
  | [] => []
  | [a] =>
    let n := byte_to_Z a * 65536 in
    [b64_char (n / 262144); b64_char (n / 4096 mod 64); b64_pad; b64_pad]
  | [a; b] =>
    let n := byte_to_Z a * 65536 + byte_to_Z b * 256 in
    [b64_char (n / 262144); b64_char (n / 4096 mod 64);
     b64_char (n / 64 mod 64); b64_pad]
  | a :: b :: c :: rest =>
    let n := byte_to_Z a * 65536 + byte_to_Z b * 256 + byte_to_Z c in
    b64_char (n / 262144) :: b64_char (n / 4096 mod 64)
      :: b64_char (n / 64 mod 64) :: b64_char (n mod 64) :: b64encode rest
  end.

(** The inverse reading, used to state what a verifier decodes: strict
    RFC 4648, four characters per group, padding only in the last. *)
Fixpoint index_of (x : byte) (l : list byte) (i : Z) : option Z :=
  match l with
  | [] => None
  | y :: t => if Byte.eqb x y then Some i else index_of x t (i + 1)
  end.

Definition b64_value (c : byte) : option Z := index_of c b64_alphabet 0.

Fixpoint b64decode (cs : bytes) : option bytes :=
  match cs with
  | [] => Some []
  | c1 :: c2 :: c3 :: c4 :: rest =>
    match b64_value c1, b64_value c2 with
    | Some v1, Some v2 =>
      match b64_value c3, b64_value c4, rest with
      | Some v3, Some v4, _ =>
        let n := ((v1 * 64 + v2) * 64 + v3) * 64 + v4 in
        match b64decode rest with
        | Some bs =>
          Some (byte_of_Z (n / 65536) :: byte_of_Z (n / 256 mod 256)
                  :: byte_of_Z (n mod 256) :: bs)
        | None => None
        end
      | Some v3, None, [] =>
        if Byte.eqb c4 b64_pad then
          let n := ((v1 * 64 + v2) * 64 + v3) * 64 in
          Some [byte_of_Z (n / 65536); byte_of_Z (n / 256 mod 256)]
        else None
      | None, None, [] =>
        if Byte.eqb c3 b64_pad && Byte.eqb c4 b64_pad then
          let n := (v1 * 64 + v2) * 4096 in
          Some [byte_of_Z (n / 65536)]
        else None
      | _, _, _ => None
      end
    | _, _ => None
    end
  | _ => None
  end.

(** ** JSON values as Python sees them after [json.loads] *)

Inductive json : Type :=
| JNull
| JBool (b : bool)
| JInt (n : Z)
| JFloat (f : float)
| JStr (s : string)
| JArr (items : list json)
| JObj (fields : list (string * json)).

Fixpoint assoc_lookup (key : string) (fields : list (string * json)) : option json :=
  match fields with
  | [] => None
  | (k, v) :: t => if String.eqb k key then Some v else assoc_lookup key t
  end.

(** [v.get(key, default)]: only a [dict] has the method. *)
Definition json_get (v : json) (key : string) (default : json) : result json :=
  match v with
  | JObj fields =>
    match assoc_lookup key fields with
    | Some x => inr x
    | None => inr default
    end
  | _ => inl AttributeError
  end.

(** The number of code points of a [str] held as UTF-8: the bytes that
    are not continuation bytes. *)
Definition str_len (s : string) : Z :=
  Z.of_nat (length (filter (fun b => negb (is_continuation b)) (list_byte_of_string s))).

(** [len(v)]: [TypeError] on a value that has no length. *)
Definition py_len (v : json) : result Z :=
  match v with
  | JArr items => inr (Z.of_nat (length items))
  | JObj fields => inr (Z.of_nat (length fields))
  | JStr s => inr (str_len s)
  | _ => inl TypeError
  end.

(** Truth value of a Python object, as [if v:] tests it. *)
Definition truthy (v : json) : bool :=
  match v with
  | JNull => false
  | JBool b => b
  | JInt n => negb (n =? 0)
  | JFloat f => negb (PrimFloat.eqb f 0%float)
  | JStr s => negb (String.eqb s "")
  | JArr items => match items with [] => false | _ => true end
  | JObj fields => match fields with [] => false | _ => true end
  end.

(** The characters of a [str] held as UTF-8: each byte that is not a
    continuation byte starts one. *)
Fixpoint utf8_chars (bs : bytes) : list bytes :=
  match bs with
  | [] => []
  | b :: t =>
    match t with
    | b' :: _ =>
      if is_continuation b' then
        match utf8_chars t with
        | g :: gs => (b :: g) :: gs
        | [] => [[b]]
        end
      else [b] :: utf8_chars t
    | [] => [[b]]
    end
  end.

(** What [for x in v:] runs over: the items of a [list], the keys of a
    [dict], the characters of a [str]; [TypeError] on anything else. *)
Definition py_iter (v : json) : result (list json) :=
  match v with
  | JArr items => inr items
  | JObj fields => inr (map (fun kv => JStr (fst kv)) fields)
  | JStr s => inr (map (fun c => JStr (string_of_list_byte c))
                     (utf8_chars (list_byte_of_string s)))
  | _ => inl TypeError
  end.

(** [str(e)], as far as the messages built from it are modelled. *)
Definition exn_str (e : exn) : string :=
  match e with
  | ValueError msg => msg
  | MalformedPointError msg => msg
  | OverflowError => "can't convert negative int to unsigned"
  | UnicodeDecodeError => "'utf-8' codec can't decode"
  | JSONDecodeError => "Expecting value"
  | AttributeError => "object has no attribute 'get'"
  | TypeError => "object has no len()"
  | TransportError detail => detail
  | HTTPStatusError status _ => "HTTP status " +:+ py_str status
  | HTTPException status detail => py_str status +:+ ": " +:+ detail
  | CancelledError => ""
  end.

(* ================================================================== *)
(** * The [ecdsa] package, as far as the client uses it               *)
(* ================================================================== *)

(** [SECP256k1.order]. *)
Definition SECP256k1_order : Z :=
  0xFFFFFFFFFFFFFFFFFFFFFFFFFFFFFFFEBAAEDCE6AF48A03BBFD25E8CD0364141.

(** What may be passed as [hashfunc=]. *)
Inductive hashfunc : Type :=
| hashlib_sha1
| hashlib_sha256.

(** A signing key is its secret exponent. *)
Definition SigningKey : Type := Z.

(** [SigningKey.from_string(b, curve=SECP256k1)]: exactly 32 bytes, read
    big-endian, and a secret exponent in [1, order). *)
Definition SigningKey_from_string (b : bytes) : result SigningKey :=
  if negb (Nat.eqb (length b) 32) then
    inl (MalformedPointError "Invalid length of private key")
  else
    let secexp := int_from_bytes b in
    if (1 <=? secexp) && (secexp <? SECP256k1_order) then inr secexp
    else inl (MalformedPointError "Invalid value for secexp").

(** The shape of a raw secp256k1 signature under [sigencode_string]: 64
    bytes, [r] then [s], each 32 bytes big-endian, with [s] in
    [1, order). *)
Definition signature_format
    (sign : SigningKey -> bytes -> hashfunc -> bytes) : Prop :=
  forall sk data h,
    1 <= sk < SECP256k1_order ->
    length (sign sk data h) = 64%nat
    /\ 1 <= int_from_bytes (skipn 32 (sign sk data h)) < SECP256k1_order.

(** The low-S form of [s]. *)
Definition low_s (s : Z) : Z :=
  if s >? SECP256k1_order / 2 then SECP256k1_order - s else s.

(* ================================================================== *)
(** * The process: client objects, settings, clocks, upstream, log    *)
(* ================================================================== *)

(** [class GonkaClient]: the attributes [__init__] sets.  The
    [httpx.AsyncClient] it owns is the [upstream] of the [World]. *)
Record GonkaClient : Type := mkGonkaClient {
  private_key : string;
  address : string;
  endpoint : string;
  provider_address : string;
  timeout : float;
  _wall_base : Z;
  _perf_base : Z
}.

(** [class Settings(BaseSettings)]. *)
Record Settings : Type := mkSettings {
  gonka_private_key : string;
  gonka_address : string;
  gonka_endpoint : string;
  gonka_provider_address : string;
  api_key : string;
  host : string;
  port : Z
}.

Record HttpRequest : Type := mkHttpRequest {
  req_method : string;
  req_url : string;
  req_headers : gmap string string;
  req_content : bytes
}.

(** What the upstream answers: a status line, then the body in chunks;
    [body_failure] is the transport error that ends the body early. *)
Record HttpResponse : Type := mkHttpResponse {
  status_code : Z;
  body_chunks : list bytes;
  body_failure : option string
}.

Inductive HttpOutcome : Type :=
| ConnectFailed (detail : string)
| Responded (r : HttpResponse).

Inductive LogLevel : Type := INFO | WARNING | ERROR.

(** One constructor per [logger] call of the modelled functions. *)
Inductive LogMsg : Type :=
| LogRequestLine (streaming : bool) (method url : string)
| LogRequestBody (pretty : string)
| LogRequestBodyFailed (e : exn)
| LogErrorStatus (streaming : bool) (status : Z)
| LogErrorBody (body : bytes)
| LogErrorBodyUnread (streaming : bool) (status : Z)
| LogRequestFailed (streaming : bool) (e : exn)
| LogModelsLoaded (n : Z)
| LogModelsFailed (e : exn)
| LogStartupLoaded (n : Z)
| LogStartupSkipped
| LogStartupFailed (e : exn)
| LogIncoming
| LogIncomingBody (pretty : string)
| LogParseFailed (e : exn)
| LogStreamingError (e : exn)
| LogChatError (e : exn).

(** What the process does that an observer can see, in order. *)
Inductive Event : Type :=
| EvSend (r : HttpRequest)
| EvReadErrorBody
| EvYield (chunk : bytes)
| EvRequestJson
| EvLog (lvl : LogLevel) (msg : LogMsg).

(** The state a call runs in.  [time_ns k] and [perf_counter_ns k] are
    what the k-th reading of each clock returns; [gonka_client] and
    [available_models] are the module globals of [main.py]. *)
Record World : Type := mkWorld {
  time_ns : nat -> Z;
  perf_counter_ns : nat -> Z;
  wall_reads : nat;
  perf_reads : nat;
  upstream : HttpRequest -> HttpOutcome;
  trace : list Event;
  settings : Settings;
  gonka_client : option GonkaClient;
  available_models : json
}.

Definition M (A : Type) : Type := World -> result A * World.

Definition ret {A : Type} (a : A) : M A := fun w => (inr a, w).

Definition raise {A : Type} (e : exn) : M A := fun w => (inl e, w).

Definition lift {A : Type} (r : result A) : M A := fun w => (r, w).

Definition bind {A B : Type} (m : M A) (k : A -> M B) : M B :=
  fun w =>
    match m w with
    | (inl e, w') => (inl e, w')
    | (inr a, w') => k a w'
    end.

(** [try: m  except ...: h]: [handler e] is [None] when no clause
    catches [e]. *)
Definition try_except {A : Type} (m : M A) (handler : exn -> option (M A)) : M A :=
  fun w =>
    match m w with
    | (inl e, w') =>
      match handler e with
      | Some h => h w'
      | None => (inl e, w')
      end
    | (inr a, w') => (inr a, w')
    end.

(** [except Exception as e: h e]. *)
Definition except_Exception {A : Type} (h : exn -> M A) (e : exn) : option (M A) :=
  if is_Exception e then Some (h e) else None.

Definition rbind {A B : Type} (r : result A) (k : A -> result B) : result B :=
  match r with
  | inl e => inl e
  | inr a => k a
  end.

Notation "x <- m ;; k" := (bind m (fun x => k))
  (at level 100, m at next level, right associativity).
Notation "m ;;; k" := (bind m (fun _ => k))
  (at level 100, right associativity).
Notation "'try' x <- r ;; k" := (rbind r (fun x => k))
  (at level 100, x name, r at next level, right associativity).

(** The four ways a call changes the state. *)
Definition add_events (w : World) (evs : list Event) : World :=
  mkWorld (time_ns w) (perf_counter_ns w) (wall_reads w) (perf_reads w)
    (upstream w) (trace w ++ evs) (settings w) (gonka_client w)
    (available_models w).

Definition tick_wall (w : World) : World :=
  mkWorld (time_ns w) (perf_counter_ns w) (S (wall_reads w)) (perf_reads w)
    (upstream w) (trace w) (settings w) (gonka_client w) (available_models w).

Definition tick_perf (w : World) : World :=
  mkWorld (time_ns w) (perf_counter_ns w) (wall_reads w) (S (perf_reads w))
    (upstream w) (trace w) (settings w) (gonka_client w) (available_models w).

Definition with_gonka_client (w : World) (c : option GonkaClient) : World :=
  mkWorld (time_ns w) (perf_counter_ns w) (wall_reads w) (perf_reads w)
    (upstream w) (trace w) (settings w) c (available_models w).

Definition with_available_models (w : World) (v : json) : World :=
  mkWorld (time_ns w) (perf_counter_ns w) (wall_reads w) (perf_reads w)
    (upstream w) (trace w) (settings w) (gonka_client w) v.

Definition emit (e : Event) : M unit := fun w => (inr tt, add_events w [e]).

Definition log (lvl : LogLevel) (msg : LogMsg) : M unit := emit (EvLog lvl msg).

(** [time.time_ns()]. *)
Definition time_time_ns : M Z :=
  fun w => (inr (time_ns w (wall_reads w)), tick_wall w).

(** [time.perf_counter_ns()]. *)
Definition time_perf_counter_ns : M Z :=
  fun w => (inr (perf_counter_ns w (perf_reads w)), tick_perf w).

(** [global gonka_client; gonka_client = c]. *)
Definition set_gonka_client (c : GonkaClient) : M unit :=
  fun w => (inr tt, with_gonka_client w (Some c)).

(** [global available_models; available_models = v]. *)
Definition set_available_models (v : json) : M unit :=
  fun w => (inr tt, with_available_models w v).

(** Reading the state: the module globals and the upstream are looked
    up through it. *)
Definition get_world : M World := fun w => (inr w, w).

(* ================================================================== *)
(** * Stand-ins for the external packages, to run the model on        *)
(* ================================================================== *)

(** A signer with the right output format whose [s] lies in the upper
    half of the order. *)
Definition stub_sign (sk : SigningKey) (data : bytes) (h : hashfunc) : bytes :=
  be_bytes 32 (1 + sk mod 1000)
  ++ be_bytes 32 (SECP256k1_order - 1 - Z.of_nat (length data) mod 1000).

(** A serializer that knows the empty object. *)
Definition stub_dumps (v : json) : string :=
  match v with
  | JObj [] => "{}"
  | _ => "{...}"
  end.

(** A decoder for UTF-8 bodies. *)
Definition stub_text (b : bytes) : option string :=
  if utf8_valid b then Some (string_of_list_byte b) else None.

(** A parser that knows the empty object. *)
Definition stub_parse (s : string) : option json :=
  if String.eqb s "{}" then Some (JObj []) else None.

(** The key [42], as 64 hexadecimal digits after ["0x"]. *)
Definition test_key : string :=
  "0x000000000000000000000000000000000000000000000000000000000000002a".

(** A client holding that key. *)
Definition test_client : GonkaClient :=
  mkGonkaClient test_key "gonka1requester" "https://node.example/v1"
    "gonka1provider" 60%float 1700000000000000000 5000.

(** An upstream that is down: 503 with a body in two chunks. *)
Definition failing_upstream (r : HttpRequest) : HttpOutcome :=
  Responded (mkHttpResponse 503 [str_encode "upstream "; str_encode "down"] None).

(** An upstream that streams two chunks under a 200. *)
Definition streaming_upstream (r : HttpRequest) : HttpOutcome :=
  Responded (mkHttpResponse 200 [str_encode "data: a"; str_encode "data: b"] None).

(** A fully configured server. *)
Definition complete_settings : Settings :=
  mkSettings test_key "gonka1requester" "https://node.example/v1" "gonka1provider"
    "sk-test" "0.0.0.0" 8000.

(** A server with no provider address configured. *)
Definition incomplete_settings : Settings :=
  mkSettings test_key "gonka1requester" "https://node.example/v1" ""
    "sk-test" "0.0.0.0" 8000.

(** A process that has just started: clocks that tick, no client yet. *)
Definition boot_world (s : Settings) (up : HttpRequest -> HttpOutcome) : World :=
  mkWorld (fun k => 1700000000000000000 + 1000 * Z.of_nat k)
    (fun k => 5000 + 10 * Z.of_nat k) 0 0 up [] s None (JArr []).

(** The same process once [test_client] has been created from
    [complete_settings]: each clock has been read once. *)
Definition serving_world (up : HttpRequest -> HttpOutcome) : World :=
  mkWorld (fun k => 1700000000000000000 + 1000 * Z.of_nat k)
    (fun k => 5000 + 10 * Z.of_nat k) 1 1 up [] complete_settings
    (Some test_client) (JArr []).


(** An upstream whose 200 carries a byte that is no text. *)
Definition garbled_upstream (r : HttpRequest) : HttpOutcome :=
  Responded (mkHttpResponse 200 [[xff]] None).

(** An upstream that answers every request with the empty object. *)
Definition answering_upstream (r : HttpRequest) : HttpOutcome :=
  Responded (mkHttpResponse 200 [str_encode "{}"] None).

(** The body of a chat request that asks for a stream. *)
Definition stream_text : string :=
  "{" +:+ String (ascii_of_nat 34) "stream" +:+ String (ascii_of_nat 34) ": true}".

(** A parser that knows that body and the empty object. *)
Definition stream_parse (s : string) : option json :=
  if String.eqb s stream_text then Some (JObj [("stream", JBool true)])
  else stub_parse s.

(** The key [42] as its 64 digits, with no prefix. *)
Definition bare_key : string :=
  "000000000000000000000000000000000000000000000000000000000000002a".

Section Proxy.

(* ================================================================== *)
(** * [app/gonka_client.py]                                           *)
(* ================================================================== *)

(** [SigningKey.sign_deterministic(data, hashfunc=...)] with the default
    [sigencode_string]: the raw signature bytes. *)
Variable sign_deterministic : SigningKey -> bytes -> hashfunc -> bytes.

(** [json.dumps(v)], [json.dumps(v, indent=2, ensure_ascii=False)] and
    the parser behind [json.loads(s)], [None] on a text that is not JSON. *)
Variable json_dumps : json -> string.
Variable json_dumps_indent : json -> string.
Variable json_parse : string -> option json.

(** [json.loads(s)]. *)
Definition json_loads (s : string) : result json :=
  match json_parse s with
  | Some v => inr v
  | None => inl JSONDecodeError
  end.

(** The text [json.loads] reads from a [bytes] argument,
    [b.decode(detect_encoding(b), 'surrogatepass')]; [None] when that
    raises [UnicodeDecodeError]. *)
Variable json_text : bytes -> option string.

(** [json.loads(b)] on [bytes]: what [response.json()] and
    [await request.json()] hand their body to. *)
Definition json_loads_bytes (b : bytes) : result json :=
  match json_text b with
  | Some s => json_loads s
  | None => inl UnicodeDecodeError
  end.

(** [GonkaClient.__init__]. *)
Definition __init__ (private_key address endpoint provider_address : string)
    (timeout : float) : M GonkaClient :=
  wall_base <- time_time_ns ;;
  perf_base <- time_perf_counter_ns ;;
  ret (mkGonkaClient private_key address (str_rstrip "/" endpoint)
         provider_address timeout wall_base perf_base).

(** [GonkaClient._hybrid_timestamp_ns]. *)
Definition _hybrid_timestamp_ns (self : GonkaClient) : M Z :=
  now <- time_perf_counter_ns ;;
  ret (_wall_base self + (now - _perf_base self)).

(** The key text handed to [bytes.fromhex]: the ["0x"] prefix removed. *)
Definition strip_0x (key : string) : string :=
  if str_startswith key "0x" then str_drop 2 key else key.

(** [msg = payload_bytes + str(timestamp_ns).encode('utf-8')
          + provider_address.encode('utf-8')]. *)
Definition signing_message (payload_bytes : bytes) (timestamp_ns : Z)
    (provider_address : string) : bytes :=
  payload_bytes ++ str_encode (py_str timestamp_ns) ++ str_encode provider_address.

(** The first two statements of [_sign_payload]: the key text parsed
    into a signing key. *)
Definition private_key_scalar (key : string) : result SigningKey :=
  try key_bytes <- bytes_fromhex (strip_0x key) ;;
  SigningKey_from_string key_bytes.

(** [GonkaClient._sign_payload]. *)
Definition _sign_payload (self : GonkaClient) (payload_bytes : bytes)
    (timestamp_ns : Z) (provider_address : string) : result string :=
  let pk := strip_0x (private_key self) in
  try key_bytes <- bytes_fromhex pk ;;
  try sk <- SigningKey_from_string key_bytes ;;
  let msg := signing_message payload_bytes timestamp_ns provider_address in
  let sig := sign_deterministic sk msg hashlib_sha256 in
  let r := firstn 32 sig in
  let s := skipn 32 sig in
  let order := SECP256k1_order in
  let s_int := int_from_bytes s in
  try s <- (if s_int >? order / 2 then int_to_bytes (order - s_int) 32 else inr s) ;;
  bytes_decode (b64encode (r ++ s)).

(** The [headers] dict of [_prepare_request]. *)
Definition signed_headers (signature address : string) (timestamp_ns : Z)
    : gmap string string :=
  <["X-Timestamp" := py_str timestamp_ns]>
    (<["X-Requester-Address" := address]>
       (<["Authorization" := signature]>
          (<["Content-Type" := "application/json"]> ∅))).

(** [GonkaClient._prepare_request]. *)
Definition _prepare_request (self : GonkaClient) (payload : option json)
    : M (bytes * gmap string string) :=
  let payload := match payload with None => JObj [] | Some p => p end in
  let payload_bytes := str_encode (json_dumps payload) in
  timestamp_ns <- _hybrid_timestamp_ns self ;;
  signature <- lift (_sign_payload self payload_bytes timestamp_ns (provider_address self)) ;;
  ret (payload_bytes, signed_headers signature (address self) timestamp_ns).

(** The block "Log request body before sending" of [request] and
    [request_stream]. *)
Definition log_request_body (streaming : bool) (method url : string)
    (payload_bytes : bytes) : M unit :=
  try_except
    (text <- lift (bytes_decode payload_bytes) ;;
     request_body <- lift (json_loads text) ;;
     log INFO (LogRequestLine streaming method url) ;;;
     log INFO (LogRequestBody (json_dumps_indent request_body)))
    (except_Exception (fun e => log WARNING (LogRequestBodyFailed e))).

(** [response.raise_for_status()], as httpx has it since 0.18: any status
    outside 2xx raises.  [content] is the body the response holds at that
    point, which the exception carries along. *)
Definition raise_for_status (status : Z) (content : option bytes) : result unit :=
  if (200 <=? status) && (status <=? 299) then inr tt
  else inl (HTTPStatusError status content).

(** The two [except] clauses that [request] and [request_stream] share:
    log, then re-raise. *)
Definition log_and_reraise {A : Type} (streaming : bool) (e : exn) : option (M A) :=
  match e with
  | HTTPStatusError status content =>
    Some
      (match content with
       | Some error_body =>
         log ERROR (LogErrorStatus streaming status) ;;;
         log ERROR (LogErrorBody error_body)
       | None => log ERROR (LogErrorBodyUnread streaming status)
       end ;;;
       raise e)
  | _ =>
    except_Exception (fun e => log ERROR (LogRequestFailed streaming e) ;;; raise e) e
  end.

(** [await self.client.request(...)]: the request goes out and the whole
    response is read. *)
Definition client_request (req : HttpRequest) : M (Z * bytes) :=
  emit (EvSend req) ;;;
  w <- get_world ;;
  match upstream w req with
  | ConnectFailed detail => raise (TransportError detail)
  | Responded r =>
    match body_failure r with
    | Some detail => raise (TransportError detail)
    | None => ret (status_code r, concat (body_chunks r))
    end
  end.

(** [GonkaClient.request]. *)
Definition request (self : GonkaClient) (method path : string)
    (payload : option json) : M json :=
  let url := endpoint self +:+ path in
  prepared <- _prepare_request self payload ;;
  let payload_bytes := fst prepared in
  let headers := snd prepared in
  log_request_body false method url payload_bytes ;;;
  try_except
    (response <- client_request (mkHttpRequest method url headers payload_bytes) ;;
     lift (raise_for_status (fst response) (Some (snd response))) ;;;
     lift (json_loads_bytes (snd response)))
    (log_and_reraise false).

(** [async with self.client.stream(...) as response]: the request goes
    out and the status line is read; the body is still on the wire. *)
Definition client_stream (req : HttpRequest) : M HttpResponse :=
  emit (EvSend req) ;;;
  w <- get_world ;;
  match upstream w req with
  | ConnectFailed detail => raise (TransportError detail)
  | Responded r => ret r
  end.

(** [await response.aread()]. *)
Definition aread (response : HttpResponse) : M bytes :=
  emit EvReadErrorBody ;;;
  match body_failure response with
  | Some detail => raise (TransportError detail)
  | None => ret (concat (body_chunks response))
  end.

(** [async for chunk in response.aiter_bytes(): yield chunk]. *)
Fixpoint yield_chunks (chunks : list bytes) (failure : option string) : M unit :=
  match chunks with
  | [] =>
    match failure with
    | Some detail => raise (TransportError detail)
    | None => ret tt
    end
  | chunk :: rest => emit (EvYield chunk) ;;; yield_chunks rest failure
  end.

(** [GonkaClient.request_stream], run to its end by a consumer that takes
    every chunk: each [yield] is an [EvYield] of the trace, and the result
    is how the generator ends. *)
Definition request_stream (self : GonkaClient) (method path : string)
    (payload : option json) : M unit :=
  let url := endpoint self +:+ path in
  prepared <- _prepare_request self payload ;;
  let payload_bytes := fst prepared in
  let headers := snd prepared in
  log_request_body true method url payload_bytes ;;;
  try_except
    (response <- client_stream (mkHttpRequest method url headers payload_bytes) ;;
     (if status_code response >=? 400 then
        content <-
          try_except
            (error_body <- aread response ;;
             log ERROR (LogErrorStatus true (status_code response)) ;;;
             log ERROR (LogErrorBody error_body) ;;;
             ret (Some error_body))
            (except_Exception
               (fun read_err =>
                  log ERROR (LogErrorBodyUnread true (status_code response)) ;;;
                  ret None)) ;;
        lift (raise_for_status (status_code response) content)
      else ret tt) ;;;
     yield_chunks (body_chunks response) (body_failure response))
    (log_and_reraise true).

(** [GonkaClient.get_models]. *)
Definition get_models (self : GonkaClient) : M json :=
  try_except
    (response <- request self "GET" "/models" (Some (JObj [])) ;;
     models <- lift (json_get response "models" (JArr [])) ;;
     n <- lift (py_len models) ;;
     log INFO (LogModelsLoaded n) ;;;
     ret models)
    (except_Exception
       (fun e => log WARNING (LogModelsFailed e) ;;; ret (JArr []))).

(* ================================================================== *)
(** * [app/auth.py]                                                   *)
(* ================================================================== *)

(** The inbound request, as far as the handlers look at it. *)
Record Request : Type := mkRequest {
  authorization : option string;
  body : bytes
}.

(** [not s] on a [str]. *)
Definition str_falsy (s : string) : bool := String.eqb s "".

(** [not token] on an [Optional[str]]. *)
Definition token_falsy (token : option string) : bool :=
  match token with
  | None => true
  | Some t => str_falsy t
  end.

(** [verify_api_key]; [credentials] is what [HTTPBearer(auto_error=False)]
    found, its [.credentials] when it found any. *)
Definition verify_api_key (req : Request) (credentials : option string)
    : M bool :=
  w <- get_world ;;
  if str_falsy (api_key (settings w)) then
    raise (HTTPException 500 "API key not configured on server")
  else
    let token := credentials in
    let token :=
      if token_falsy token then
        let auth_header :=
          match authorization req with Some h => h | None => "" end in
        if str_falsy auth_header then token
        else if str_startswith auth_header "Bearer " then Some (str_drop 7 auth_header)
        else Some auth_header
      else token in
    match token with
    | None =>
      raise (HTTPException 401
               "Missing API key. Please provide Authorization header with Bearer token.")
    | Some t =>
      if str_falsy t then
        raise (HTTPException 401
                 "Missing API key. Please provide Authorization header with Bearer token.")
      else if negb (String.eqb t (api_key (settings w))) then
        raise (HTTPException 401 "Invalid API key")
      else ret true
    end.

(** [get_api_key_optional]. *)
Definition get_api_key_optional : M (option string) :=
  w <- get_world ;;
  ret (if str_falsy (api_key (settings w)) then None else Some (api_key (settings w))).

(* ================================================================== *)
(** * [app/main.py]                                                   *)
(* ================================================================== *)

(** [all([private_key, address, endpoint, provider_address])]. *)
Definition configuration_complete (s : Settings) : bool :=
  negb (str_falsy (gonka_private_key s))
  && negb (str_falsy (gonka_address s))
  && negb (str_falsy (gonka_endpoint s))
  && negb (str_falsy (gonka_provider_address s)).

(** [_create_gonka_client]. *)
Definition _create_gonka_client : M (option GonkaClient) :=
  w <- get_world ;;
  match gonka_client w with
  | None =>
    if negb (configuration_complete (settings w)) then ret None
    else
      client <- __init__ (gonka_private_key (settings w)) (gonka_address (settings w))
                  (gonka_endpoint (settings w)) (gonka_provider_address (settings w))
                  60%float ;;
      set_gonka_client client ;;;
      ret (Some client)
  | Some client => ret (Some client)
  end.

(** The [missing] list of [get_gonka_client]. *)
Definition missing_settings (s : Settings) : list string :=
  (if str_falsy (gonka_private_key s) then ["GONKA_PRIVATE_KEY"] else [])
  ++ (if str_falsy (gonka_address s) then ["GONKA_ADDRESS"] else [])
  ++ (if str_falsy (gonka_endpoint s) then ["GONKA_ENDPOINT"] else [])
  ++ (if str_falsy (gonka_provider_address s) then
        ["GONKA_PROVIDER_ADDRESS (provider address in bech32 format, get it from the Gonka provider)"]
      else []).

Definition incomplete_detail (missing : list string) : string :=
  "Gonka configuration incomplete. Missing: " +:+ str_join ", " missing
  +:+ ". GONKA_PROVIDER_ADDRESS is the Gonka provider address (bech32 format), "
  +:+ "which can be obtained from the provider or in Gonka documentation.".

(** [get_gonka_client]. *)
Definition get_gonka_client : M GonkaClient :=
  client <- _create_gonka_client ;;
  match client with
  | None =>
    w <- get_world ;;
    raise (HTTPException 500 (incomplete_detail (missing_settings (settings w))))
  | Some client => ret client
  end.

(** The startup half of [lifespan]. *)
Definition lifespan : M unit :=
  try_except
    (client <- _create_gonka_client ;;
     match client with
     | Some client =>
       models <- get_models client ;;
       set_available_models models ;;;
       n <- lift (py_len models) ;;
       log INFO (LogStartupLoaded n)
     | None =>
       log WARNING LogStartupSkipped ;;;
       set_available_models (JArr [])
     end)
    (except_Exception
       (fun e => log ERROR (LogStartupFailed e) ;;; set_available_models (JArr []))).

(** [GET /api/models]. *)
Definition get_models_no_auth : M json :=
  w <- get_world ;;
  ret (JObj [("models", available_models w)]).

(** One entry of [models_data] in [list_models]. *)
Definition model_entry (model_id : json) : json :=
  JObj [("id", model_id); ("object", JStr "model"); ("created", JInt 1677610602);
        ("owned_by", JStr "gonka")].

(** The loop of [list_models]: [model.get("id", "unknown")] on each
    cached model, in order; the first model without a [get] ends it. *)
Fixpoint models_data (models : list json) : result (list json) :=
  match models with
  | [] => inr []
  | model :: rest =>
    try model_id <- json_get model "id" (JStr "unknown") ;;
    try entries <- models_data rest ;;
    inr (model_entry model_id :: entries)
  end.

(** [list_models], the body of the handler of [GET /v1/models]. *)
Definition list_models : M json :=
  w <- get_world ;;
  models <- lift (py_iter (available_models w)) ;;
  data <- lift (models_data models) ;;
  let data :=
    match data with
    | [] => [model_entry (JStr "gonka-model")]
    | _ => data
    end in
  ret (JObj [("object", JStr "list"); ("data", JArr data)]).

(** [health], the handler of [GET /health]. *)
Definition health : M json := ret (JObj [("status", JStr "ok")]).

(** What a handler returns.  A [StreamingResponse] holds its generator
    unrun: the framework runs it after the handler has returned. *)
Inductive Response : Type :=
| JSONResponse (content : json)
| StreamingResponse (content : M unit) (media_type : string)
    (headers : gmap string string).

(** [await request.json()]. *)
Definition request_json (req : Request) : M json :=
  emit EvRequestJson ;;;
  lift (json_loads_bytes (body req)).

(** The inner [generate()] of [chat_completions]. *)
Definition generate (client : GonkaClient) (body : json) : M unit :=
  try_except
    (request_stream client "POST" "/chat/completions" (Some body))
    (except_Exception (fun e => log ERROR (LogStreamingError e) ;;; raise e)).

Definition sse_headers : gmap string string :=
  <["X-Accel-Buffering" := "no"]>
    (<["Connection" := "keep-alive"]> (<["Cache-Control" := "no-cache"]> ∅)).

(** [chat_completions], the body of the handler. *)
Definition chat_completions (req : Request) : M Response :=
  client <- get_gonka_client ;;
  body <-
    try_except
      (body <- request_json req ;;
       log INFO LogIncoming ;;;
       log INFO (LogIncomingBody (json_dumps_indent body)) ;;;
       ret body)
      (except_Exception
         (fun e =>
            log ERROR (LogParseFailed e) ;;;
            raise (HTTPException 400 ("Invalid JSON: " +:+ exn_str e)))) ;;
  stream <- lift (json_get body "stream" (JBool false)) ;;
  try_except
    (if truthy stream then
       ret (StreamingResponse (generate client body) "text/event-stream" sse_headers)
     else
       response <- request client "POST" "/chat/completions" (Some body) ;;
       ret (JSONResponse response))
    (except_Exception
       (fun e =>
          log ERROR (LogChatError e) ;;;
          raise (HTTPException 500 ("Internal server error: " +:+ exn_str e)))).

(** [POST /v1/chat/completions]: the [verify_api_key] dependency is
    resolved first, then the handler runs. *)
Definition post_chat_completions (req : Request) (credentials : option string)
    : M Response :=
  verify_api_key req credentials ;;;
  chat_completions req.

(** [GET /v1/models]: [verify_api_key] first, then the handler. *)
Definition get_v1_models (req : Request) (credentials : option string) : M json :=
  verify_api_key req credentials ;;;
  list_models.

(* ================================================================== *)
(** * The vocabulary of the statements                                *)
(* ================================================================== *)

(** ** Decimal numerals *)

(** ["0"] to ["9"]. *)
Definition is_digit (c : ascii) : bool :=
  let n := N_of_ascii c in ((48 <=? n) && (n <=? 57))%N.

(** Every character of [s] is a decimal digit. *)
Fixpoint all_digits (s : string) : bool :=
  match s with
  | EmptyString => true
  | String c t => is_digit c && all_digits t
  end.

(** A non-negative integer written in base 10 with no sign and no
    leading zero: digits only, not empty, and a first digit ["0"] only in
    the numeral ["0"]. *)
Definition canonical_decimal (s : string) : Prop :=
  s <> "" /\ all_digits s = true /\ (forall t, s = String "0" t -> t = "").

(** What a decimal numeral reads as. *)
Definition decimal_value (s : string) : option Z :=
  option_map Z.of_int (NilZero.int_of_string s).

(** ** Successive clock readings *)

(** [n] calls of [_hybrid_timestamp_ns] in a row, first result first. *)
Fixpoint hybrid_timestamps (self : GonkaClient) (n : nat) : M (list Z) :=
  match n with
  | O => ret []
  | S k =>
    t <- _hybrid_timestamp_ns self ;;
    ts <- hybrid_timestamps self k ;;
    ret (t :: ts)
  end.

(** The monotonic clock never goes back. *)
Definition monotonic_clock (w : World) : Prop :=
  forall i j, (i <= j)%nat -> perf_counter_ns w i <= perf_counter_ns w j.

(** ** Malformed key texts *)

(** ["0"]-["9"], ["a"]-["f"], ["A"]-["F"]. *)
Definition is_hex_digit (c : ascii) : bool :=
  match hex_digit_value c with
  | Some _ => true
  | None => false
  end.

(** [f] holds of every character of [s]. *)
Fixpoint str_forallb (f : ascii -> bool) (s : string) : bool :=
  match s with
  | EmptyString => true
  | String c t => f c && str_forallb f t
  end.

(** The key text, its ["0x"] prefix apart, holds a character that is
    neither a hexadecimal digit nor white space. *)
Definition non_hex_key (key : string) : bool :=
  negb (str_forallb (fun c => is_hex_digit c || is_space c) (strip_0x key)).

(** The key text, its ["0x"] prefix apart, is hexadecimal digits, but not
    the 64 of a 32-byte scalar. *)
Definition wrong_length_key (key : string) : bool :=
  str_forallb is_hex_digit (strip_0x key)
  && negb (Nat.eqb (String.length (strip_0x key)) 64).

(** A key with a non-hexadecimal character or of the wrong length. *)
Definition malformed_key (key : string) : bool :=
  non_hex_key key || wrong_length_key key.

(** ** What a trace shows *)

(** The requests of a trace, in the order they were sent. *)
Fixpoint sent_requests (t : list Event) : list HttpRequest :=
  match t with
  | [] => []
  | EvSend r :: t' => r :: sent_requests t'
  | _ :: t' => sent_requests t'
  end.

(** The chunks a trace handed to the consumer of a stream. *)
Fixpoint yielded_chunks (t : list Event) : list bytes :=
  match t with
  | [] => []
  | EvYield c :: t' => c :: yielded_chunks t'
  | _ :: t' => yielded_chunks t'
  end.

(** How often a trace read an error body. *)
Fixpoint error_body_reads (t : list Event) : nat :=
  match t with
  | [] => O
  | EvReadErrorBody :: t' => S (error_body_reads t')
  | _ :: t' => error_body_reads t'
  end.

(** One request, signed with the timestamp its header carries: the
    monotonic clock is read once and the wall clock not at all, and what
    goes out (if the key lets the signer run) is a single request whose
    [X-Timestamp] is [str] of the very timestamp given to [_sign_payload]
    for its [Authorization]. *)
Definition signed_exchange (self : GonkaClient) (payload : option json)
    (w w' : World) : Prop :=
  let payload_bytes :=
    str_encode (json_dumps (match payload with None => JObj [] | Some p => p end)) in
  let timestamp_ns :=
    _wall_base self + (perf_counter_ns w (perf_reads w) - _perf_base self) in
  perf_reads w' = S (perf_reads w)
  /\ wall_reads w' = wall_reads w
  /\ match _sign_payload self payload_bytes timestamp_ns (provider_address self) with
     | inr signature =>
       exists req,
         sent_requests (trace w') = sent_requests (trace w) ++ [req]
         /\ req_content req = payload_bytes
         /\ req_headers req !! "Authorization" = Some signature
         /\ req_headers req !! "X-Timestamp" = Some (py_str timestamp_ns)
     | inl _ => sent_requests (trace w') = sent_requests (trace w)
     end.

(** ** The status a caller sees *)

(** The status code of the HTTP response the framework makes of what a
    handler returned or raised: an [HTTPException] gives its own, any
    other exception a 500. *)
Definition response_status (r : result Response) : Z :=
  match r with
  | inr _ => 200
  | inl (HTTPException status _) => status
  | inl _ => 500
  end.

(** ** The module globals over time *)

(** A call that leaves [settings] and [gonka_client] as they were. *)
Definition keeps_globals (w w' : World) : Prop :=
  settings w' = settings w /\ gonka_client w' = gonka_client w.

(** What a step of [main.py] does to the globals: [settings] is never
    written, and [gonka_client] only under a complete configuration. *)
Definition main_step (w w' : World) : Prop :=
  settings w' = settings w
  /\ (gonka_client w' = gonka_client w \/ configuration_complete (settings w) = true).

(** The states the process can be in: it starts with no client, and from
    then on runs the startup hook, the handler, and the generators the
    handler returned. *)
Inductive reachable : World -> Prop :=
| reachable_boot (w : World) :
    gonka_client w = None -> reachable w
| reachable_lifespan (w : World) :
    reachable w -> reachable (snd (lifespan w))
| reachable_chat (w : World) (req : Request) (credentials : option string) :
    reachable w -> reachable (snd (post_chat_completions req credentials w))
| reachable_generate (w : World) (client : GonkaClient) (body : json) :
    reachable w -> reachable (snd (generate client body w)).

(** ** Texts *)

(** [sub] occurs in [s]: Python's [sub in s]. *)
Fixpoint str_contains (s sub : string) : bool :=
  String.prefix sub s
  || match s with
     | EmptyString => false
     | String _ t => str_contains t sub
     end.

(** ** What a request looks like *)

(** The request a call puts on the wire, beyond its signature: the
    method and the URL it was asked for, and a header set of exactly four
    entries, among them the JSON content type and the requester's
    address. *)
Definition addressed_exchange (self : GonkaClient) (method path : string)
    (w w' : World) : Prop :=
  exists req,
    sent_requests (trace w') = sent_requests (trace w) ++ [req]
    /\ req_method req = method
    /\ req_url req = endpoint self +:+ path
    /\ size (req_headers req) = 4%nat
    /\ req_headers req !! "Content-Type" = Some "application/json"
    /\ req_headers req !! "X-Requester-Address" = Some (address self)
    /\ (exists v, req_headers req !! "Authorization" = Some v)
    /\ (exists v, req_headers req !! "X-Timestamp" = Some v).

(** The one request of [get_models]. *)
Definition models_request (self : GonkaClient) (req : HttpRequest) : Prop :=
  req_method req = "GET"
  /\ req_url req = endpoint self +:+ "/models"
  /\ req_content req = str_encode (json_dumps (JObj [])).

(** ** The value of a key text *)

(** What a run of hexadecimal digits writes, the most significant digit
    first, continuing from [acc]. *)
Fixpoint hex_value_from (acc : Z) (s : string) : Z :=
  match s with
  | EmptyString => acc
  | String c t =>
    hex_value_from
      (16 * acc + match hex_digit_value c with Some d => d | None => 0 end) t
  end.

Definition hex_value (s : string) : Z := hex_value_from 0 s.

(* ================================================================== *)
(** * Facts about the runtime                                         *)
(* ================================================================== *)

Example py_str_examples :
  py_str 0 = "0" /\ py_str 1700000000000000123 = "1700000000000000123"
  /\ py_str (-15) = "-15".
Proof. repeat split; reflexivity. Qed.

Example bytes_fromhex_examples :
  bytes_fromhex "0aFf 10" = inr [byte_of_Z 10; byte_of_Z 255; byte_of_Z 16]
  /\ bytes_fromhex "0aF f10" = inl fromhex_error
  /\ bytes_fromhex "abc" = inl fromhex_error
  /\ bytes_fromhex "zz" = inl fromhex_error.
Proof. repeat split; reflexivity. Qed.

Example b64encode_examples :
  b64encode (str_encode "Man") = str_encode "TWFu"
  /\ b64encode (str_encode "Ma") = str_encode "TWE="
  /\ b64encode (str_encode "M") = str_encode "TQ=="
  /\ b64decode (str_encode "TWE=") = Some (str_encode "Ma").
Proof. repeat split; reflexivity. Qed.

Example int_bytes_examples :
  int_from_bytes [byte_of_Z 1; byte_of_Z 0] = 256
  /\ int_to_bytes 258 2 = inr [byte_of_Z 1; byte_of_Z 2]
  /\ int_to_bytes (-1) 32 = inl OverflowError
  /\ int_to_bytes 65536 2 = inl OverflowError.
Proof. repeat split; reflexivity. Qed.

Example str_rstrip_examples :
  str_rstrip "/" "https://node.example/v1//" = "https://node.example/v1"
  /\ str_rstrip "/" "///" = ""
  /\ str_rstrip "/" "a/b" = "a/b".
Proof. repeat split; reflexivity. Qed.

Lemma byte_to_Z_range (b : byte) : 0 <= byte_to_Z b < 256.
Proof.
  unfold byte_to_Z. pose proof (Byte.to_N_bounded b). lia.
Qed.

Lemma byte_of_to_Z (b : byte) : byte_of_Z (byte_to_Z b) = b.
Proof.
  unfold byte_of_Z, byte_to_Z. rewrite N2Z.id. now rewrite Byte.of_to_N.
Qed.

Lemma byte_to_of_Z (z : Z) : 0 <= z < 256 -> byte_to_Z (byte_of_Z z) = z.
Proof.
  intros Hz. unfold byte_of_Z, byte_to_Z.
  destruct (Byte.of_N (Z.to_N z)) as [b|] eqn:E.
  - apply Byte.to_of_N in E. rewrite E. lia.
  - pose proof (Byte.to_of_N_option_map (Z.to_N z)) as H. rewrite E in H.
    simpl in H. destruct (N.leb_spec (Z.to_N z) 255); [discriminate | lia].
Qed.

Lemma int_from_bytes_snoc (l : bytes) (b : byte) :
  int_from_bytes (l ++ [b]) = int_from_bytes l * 256 + byte_to_Z b.
Proof.
  unfold int_from_bytes. now rewrite fold_left_app.
Qed.

Lemma int_from_bytes_range (l : bytes) :
  0 <= int_from_bytes l < 256 ^ Z.of_nat (length l).
Proof.
  induction l as [|b l IH] using rev_ind.
  - simpl. unfold int_from_bytes. simpl. lia.
  - rewrite int_from_bytes_snoc, length_app. simpl length.
    replace (Z.of_nat (length l + 1)) with (Z.of_nat (length l) + 1) by lia.
    rewrite Z.pow_add_r by lia.
    pose proof (byte_to_Z_range b). lia.
Qed.

Lemma length_be_bytes (len : nat) (n : Z) : length (be_bytes len n) = len.
Proof.
  revert n. induction len as [|k IH]; intros n; simpl.
  - reflexivity.
  - rewrite length_app, IH. simpl. lia.
Qed.

Lemma int_from_be_bytes (len : nat) (n : Z) :
  0 <= n < 256 ^ Z.of_nat len -> int_from_bytes (be_bytes len n) = n.
Proof.
  revert n. induction len as [|k IH]; intros n Hn.
  - simpl in *. unfold int_from_bytes. simpl. lia.
  - simpl be_bytes. rewrite int_from_bytes_snoc.
    replace (Z.of_nat (S k)) with (Z.of_nat k + 1) in Hn by lia.
    rewrite Z.pow_add_r in Hn by lia.
    rewrite IH.
    + rewrite byte_to_of_Z by (apply Z.mod_pos_bound; lia).
      pose proof (Z.div_mod n 256). lia.
    + split; [apply Z.div_pos; lia | apply Z.div_lt_upper_bound; lia].
Qed.

Lemma be_bytes_from_bytes (l : bytes) : be_bytes (length l) (int_from_bytes l) = l.
Proof.
  induction l as [|b l IH] using rev_ind.
  - reflexivity.
  - rewrite length_app. simpl length. rewrite Nat.add_1_r. simpl be_bytes.
    rewrite int_from_bytes_snoc.
    pose proof (byte_to_Z_range b) as Hb.
    replace ((int_from_bytes l * 256 + byte_to_Z b) / 256) with (int_from_bytes l).
    2:{ symmetry. rewrite Z.add_comm, Z.div_add by lia.
        rewrite Z.div_small by lia. lia. }
    replace ((int_from_bytes l * 256 + byte_to_Z b) mod 256) with (byte_to_Z b).
    2:{ symmetry. rewrite Z.add_comm, Z.mod_add by lia. apply Z.mod_small. lia. }
    now rewrite IH, byte_of_to_Z.
Qed.

Lemma int_from_bytes_inj (l1 l2 : bytes) :
  length l1 = length l2 -> int_from_bytes l1 = int_from_bytes l2 -> l1 = l2.
Proof.
  intros Hlen Heq.
  rewrite <- (be_bytes_from_bytes l1), <- (be_bytes_from_bytes l2).
  now rewrite Hlen, Heq.
Qed.

Lemma int_to_bytes_ok (n : Z) (len : nat) :
  0 <= n < 256 ^ Z.of_nat len -> int_to_bytes n len = inr (be_bytes len n).
Proof.
  intros Hn. unfold int_to_bytes.
  destruct (Z.ltb_spec n 0); [lia|].
  destruct (Z.leb_spec (256 ^ Z.of_nat len) n); [lia|]. reflexivity.
Qed.

Lemma order_below_2_256 : 0 < SECP256k1_order < 256 ^ Z.of_nat 32.
Proof.
  unfold SECP256k1_order. split; reflexivity.
Qed.

(** ** base64 *)

Lemma b64_value_char (v : Z) : 0 <= v < 64 -> b64_value (b64_char v) = Some v.
Proof.
  intros Hv. unfold b64_char.
  rewrite <- (Z2Nat.id v) at 2 by lia.
  assert (Hn : (Z.to_nat v < 64)%nat) by lia.
  generalize dependent (Z.to_nat v). intros n Hn.
  do 64 (destruct n as [|n]; [reflexivity|]). lia.
Qed.

Lemma b64_char_ascii (v : Z) : (Byte.to_N (b64_char v) < 128)%N.
Proof.
  unfold b64_char.
  generalize (Z.to_nat v). intros n.
  do 64 (destruct n as [|n]; [reflexivity|]).
  destruct n; reflexivity.
Qed.

Lemma b64_value_pad : b64_value b64_pad = None.
Proof. reflexivity. Qed.

Lemma list_ind3 {A : Type} (P : list A -> Prop) :
  P [] -> (forall a, P [a]) -> (forall a b, P [a; b]) ->
  (forall a b c l, P l -> P (a :: b :: c :: l)) ->
  forall l, P l.
Proof.
  intros H0 H1 H2 H3 l.
  enough (P l /\ (forall a, P (a :: l)) /\ (forall a b, P (a :: b :: l))) by tauto.
  induction l as [|x l (IH0 & IH1 & IH2)]; repeat split; auto.
Qed.

Lemma b64_group_digits (n : Z) :
  0 <= n < 16777216 ->
  0 <= n / 262144 < 64 /\ 0 <= n / 4096 mod 64 < 64
  /\ 0 <= n / 64 mod 64 < 64 /\ 0 <= n mod 64 < 64
  /\ ((n / 262144 * 64 + n / 4096 mod 64) * 64 + n / 64 mod 64) * 64 + n mod 64 = n.
Proof.
  intros Hn. repeat split; try (apply Z.mod_pos_bound; lia);
    try (apply Z.div_pos; lia); try (apply Z.div_lt_upper_bound; lia).
  pose proof (Z.div_mod n 64). pose proof (Z.div_mod (n / 64) 64).
  pose proof (Z.div_mod (n / 4096) 64).
  replace (n / 4096) with (n / 64 / 64) in * by (rewrite Z.div_div by lia; reflexivity).
  replace (n / 262144) with (n / 64 / 64 / 64)
    by (rewrite !Z.div_div by lia; reflexivity).
  lia.
Qed.

Lemma bytes_of_triple (a b c : byte) :
  let n := byte_to_Z a * 65536 + byte_to_Z b * 256 + byte_to_Z c in
  0 <= n < 16777216
  /\ byte_of_Z (n / 65536) = a /\ byte_of_Z (n / 256 mod 256) = b
  /\ byte_of_Z (n mod 256) = c.
Proof.
  intros n. subst n.
  pose proof (byte_to_Z_range a). pose proof (byte_to_Z_range b).
  pose proof (byte_to_Z_range c).
  split; [lia|].
  replace ((byte_to_Z a * 65536 + byte_to_Z b * 256 + byte_to_Z c) / 65536)
    with (byte_to_Z a) by (apply Z.div_unique with (byte_to_Z b * 256 + byte_to_Z c); lia).
  replace ((byte_to_Z a * 65536 + byte_to_Z b * 256 + byte_to_Z c) / 256)
    with (byte_to_Z a * 256 + byte_to_Z b)
    by (apply Z.div_unique with (byte_to_Z c); lia).
  replace ((byte_to_Z a * 256 + byte_to_Z b) mod 256) with (byte_to_Z b)
    by (apply Z.mod_unique with (byte_to_Z a); lia).
  replace ((byte_to_Z a * 65536 + byte_to_Z b * 256 + byte_to_Z c) mod 256)
    with (byte_to_Z c)
    by (apply Z.mod_unique with (byte_to_Z a * 256 + byte_to_Z b); lia).
  now rewrite !byte_of_to_Z.
Qed.

Lemma b64decode_encode (bs : bytes) : b64decode (b64encode bs) = Some bs.
Proof.
  induction bs as [|a|a b|a b c l IH] using list_ind3.
  - reflexivity.
  - destruct (bytes_of_triple a x00 x00) as (Hr & Ha & _).
    change (byte_to_Z x00) with 0 in *. rewrite !Z.add_0_r in *.
    destruct (b64_group_digits _ Hr) as (H1 & H2 & H3 & H4 & Hsum).
    cbn [b64encode b64decode].
    rewrite !b64_value_char, b64_value_pad by assumption.
    change (Byte.eqb b64_pad b64_pad) with true. cbv iota. cbn [andb].
    set (n := byte_to_Z a * 65536) in *.
    assert (n / 64 mod 64 = 0 /\ n mod 64 = 0) as [E3 E4].
    { subst n. split.
      - replace (byte_to_Z a * 65536 / 64) with (byte_to_Z a * 1024)
          by (apply Z.div_unique with 0; lia).
        symmetry. apply Z.mod_unique with (byte_to_Z a * 16); lia.
      - symmetry. apply Z.mod_unique with (byte_to_Z a * 1024); lia. }
    rewrite E3, E4 in Hsum.
    replace ((n / 262144 * 64 + n / 4096 mod 64) * 4096) with n by lia.
    now rewrite Ha.
  - destruct (bytes_of_triple a b x00) as (Hr & Ha & Hb & _).
    change (byte_to_Z x00) with 0 in *. rewrite !Z.add_0_r in *.
    destruct (b64_group_digits _ Hr) as (H1 & H2 & H3 & H4 & Hsum).
    cbn [b64encode b64decode].
    rewrite !b64_value_char, b64_value_pad by assumption.
    change (Byte.eqb b64_pad b64_pad) with true. cbv iota.
    set (n := byte_to_Z a * 65536 + byte_to_Z b * 256) in *.
    assert (n mod 64 = 0) as E4.
    { subst n. symmetry.
      apply Z.mod_unique with (byte_to_Z a * 1024 + byte_to_Z b * 4);
        pose proof (byte_to_Z_range a); pose proof (byte_to_Z_range b); lia. }
    rewrite E4 in Hsum.
    replace (((n / 262144 * 64 + n / 4096 mod 64) * 64 + n / 64 mod 64) * 64)
      with n by lia.
    now rewrite Ha, Hb.
  - destruct (bytes_of_triple a b c) as (Hr & Ha & Hb & Hc).
    destruct (b64_group_digits _ Hr) as (H1 & H2 & H3 & H4 & Hsum).
    cbn [b64encode b64decode].
    rewrite !b64_value_char by assumption.
    rewrite IH, Hsum, Ha, Hb, Hc. reflexivity.
Qed.

Lemma b64encode_inj (x y : bytes) : b64encode x = b64encode y -> x = y.
Proof.
  intros H. apply (f_equal b64decode) in H.
  rewrite !b64decode_encode in H. congruence.
Qed.

Lemma b64encode_ascii (bs : bytes) :
  Forall (fun c => (Byte.to_N c < 128)%N) (b64encode bs).
Proof.
  induction bs as [|a|a b|a b c l IH] using list_ind3; cbn [b64encode];
    repeat constructor; try apply b64_char_ascii; try reflexivity; assumption.
Qed.

Lemma utf8_valid_ascii (bs : bytes) :
  Forall (fun c => (Byte.to_N c < 128)%N) bs -> utf8_valid bs = true.
Proof.
  induction 1 as [|c l Hc _ IH]; [reflexivity|].
  cbn [utf8_valid]. apply N.ltb_lt in Hc. now rewrite Hc.
Qed.

Lemma bytes_decode_b64encode (bs : bytes) :
  bytes_decode (b64encode bs) = inr (string_of_list_byte (b64encode bs)).
Proof.
  unfold bytes_decode. now rewrite utf8_valid_ascii by apply b64encode_ascii.
Qed.

(** ** [str] of an integer *)

Lemma to_int_not_nil (n : Z) : Z.to_int n <> Pos Nil /\ Z.to_int n <> Neg Nil.
Proof.
  destruct n as [|p|p]; cbn [Z.to_int]; split; try discriminate;
    intros H; injection H as H; now apply DecimalPos.Unsigned.to_uint_nonnil in H.
Qed.

Lemma decimal_value_py_str (n : Z) : decimal_value (py_str n) = Some n.
Proof.
  unfold decimal_value, py_str.
  destruct (to_int_not_nil n) as [Hp Hn].
  rewrite NilZero.isi by assumption. cbn [option_map]. now rewrite DecimalZ.of_to.
Qed.

Lemma py_str_inj (a b : Z) : py_str a = py_str b -> a = b.
Proof.
  intros H. apply (f_equal decimal_value) in H.
  rewrite !decimal_value_py_str in H. congruence.
Qed.

Lemma all_digits_string_of_uint (d : uint) :
  all_digits (NilEmpty.string_of_uint d) = true.
Proof.
  induction d; cbn [NilEmpty.string_of_uint all_digits]; try reflexivity;
    rewrite IHd; reflexivity.
Qed.

Lemma to_uint_normal (p : positive) : unorm (Pos.to_uint p) = Pos.to_uint p.
Proof.
  rewrite <- DecimalPos.Unsigned.to_of, DecimalPos.Unsigned.of_to. reflexivity.
Qed.

Lemma to_uint_no_leading_zero (p : positive) (u : uint) : Pos.to_uint p <> D0 u.
Proof.
  intros E. pose proof (to_uint_normal p) as Hn. rewrite E in Hn.
  rewrite unorm_D0 in Hn.
  assert (u = Nil \/ u <> Nil) as [->|Hne]
    by (destruct u; [left; reflexivity | right; discriminate ..]).
  - apply (DecimalPos.Unsigned.to_uint_nonzero p). exact E.
  - pose proof (nb_digits_unorm u Hne) as Hle. rewrite Hn in Hle.
    cbn [nb_digits] in Hle. lia.
Qed.

Lemma py_str_canonical (n : Z) : 0 <= n -> canonical_decimal (py_str n).
Proof.
  intros Hn. unfold py_str. destruct n as [|p|p]; [| |lia].
  - split; [discriminate | split; [reflexivity |]].
    intros t E. cbv in E. injection E as <-. reflexivity.
  - cbn [Z.to_int NilZero.string_of_int].
    pose proof (DecimalPos.Unsigned.to_uint_nonnil p) as Hnil.
    pose proof (to_uint_no_leading_zero p) as Hlead.
    destruct (Pos.to_uint p) as [|u|u|u|u|u|u|u|u|u|u] eqn:E;
      try congruence;
      try (exfalso; now apply (Hlead u));
      cbn [NilZero.string_of_uint NilEmpty.string_of_uint];
      (split;
       [ discriminate
       | split;
         [ cbn [all_digits]; now rewrite all_digits_string_of_uint
         | intros t Ht; discriminate Ht ] ]).
Qed.

Lemma str_encode_inj (a b : string) : str_encode a = str_encode b -> a = b.
Proof.
  unfold str_encode. intros H. apply (f_equal string_of_list_byte) in H.
  now rewrite !string_of_list_byte_of_string in H.
Qed.

Lemma string_of_list_byte_inj (a b : bytes) :
  string_of_list_byte a = string_of_list_byte b -> a = b.
Proof.
  intros H. apply (f_equal list_byte_of_string) in H.
  now rewrite !list_byte_of_string_of_list_byte in H.
Qed.

(** ** The message that is signed *)

Lemma signing_message_timestamp_inj (P : bytes) (C : string) (T1 T2 : Z) :
  signing_message P T1 C = signing_message P T2 C -> T1 = T2.
Proof.
  unfold signing_message. intros H.
  apply app_inv_head, app_inv_tail in H.
  now apply py_str_inj, str_encode_inj.
Qed.


(* ================================================================== *)
(** * The signer                                                      *)
(* ================================================================== *)

Hypothesis sign_format : signature_format sign_deterministic.

Lemma SigningKey_from_string_range (b : bytes) (sk : SigningKey) :
  SigningKey_from_string b = inr sk -> 1 <= sk < SECP256k1_order.
Proof.
  unfold SigningKey_from_string.
  destruct (negb (Nat.eqb (length b) 32)); [discriminate|].
  destruct ((1 <=? int_from_bytes b) && (int_from_bytes b <? SECP256k1_order))
    eqn:Hrange; [|discriminate].
  apply andb_true_iff in Hrange as [H1 H2].
  intros [= <-]. apply Z.leb_le in H1. apply Z.ltb_lt in H2. lia.
Qed.

Lemma private_key_scalar_range (key : string) (sk : SigningKey) :
  private_key_scalar key = inr sk -> 1 <= sk < SECP256k1_order.
Proof.
  unfold private_key_scalar, rbind.
  destruct (bytes_fromhex (strip_0x key)); [discriminate|].
  apply SigningKey_from_string_range.
Qed.

Lemma low_s_range (s : Z) :
  1 <= s < SECP256k1_order -> 1 <= low_s s <= SECP256k1_order / 2.
Proof.
  unfold low_s. intros Hs.
  destruct (Z.gtb_spec s (SECP256k1_order / 2)) as [Hgt|Hle]; [|lia].
  unfold SECP256k1_order in *.
  change (115792089237316195423570985008687907852837564279074904382605163141518161494337 / 2)
    with 57896044618658097711785492504343953926418782139537452191302581570759080747168 in *.
  lia.
Qed.

(** What [_sign_payload] returns on a well-formed key, in one equation. *)
Lemma sign_payload_eq (self : GonkaClient) (P : bytes) (T : Z) (A : string)
    (sk : SigningKey) :
  private_key_scalar (private_key self) = inr sk ->
  let sig := sign_deterministic sk (signing_message P T A) hashlib_sha256 in
  _sign_payload self P T A
  = inr (string_of_list_byte
           (b64encode (firstn 32 sig
                       ++ be_bytes 32 (low_s (int_from_bytes (skipn 32 sig)))))).
Proof.
  intros Hkey sig.
  pose proof (private_key_scalar_range _ _ Hkey) as Hsk.
  destruct (sign_format sk (signing_message P T A) hashlib_sha256 Hsk) as [Hlen Hs].
  fold sig in Hlen, Hs.
  unfold _sign_payload. unfold private_key_scalar in Hkey.
  destruct (bytes_fromhex (strip_0x (private_key self))) as [e|kb]; [discriminate|].
  cbn [rbind] in Hkey |- *. rewrite Hkey. cbn [rbind]. fold sig.
  pose proof order_below_2_256 as Hord.
  pose proof (low_s_range _ Hs) as Hlow. unfold low_s in *.
  destruct (int_from_bytes (skipn 32 sig) >? SECP256k1_order / 2) eqn:Hcmp.
  - rewrite int_to_bytes_ok.
    + cbn [rbind]. apply bytes_decode_b64encode.
    + assert (0 <= SECP256k1_order / 2) by (apply Z.div_pos; lia). lia.
  - cbn [rbind]. rewrite bytes_decode_b64encode.
    assert (length (skipn 32 sig) = 32%nat) as Hl by (rewrite length_skipn; lia).
    pose proof (be_bytes_from_bytes (skipn 32 sig)) as Hb. rewrite Hl in Hb.
    now rewrite Hb.
Qed.


(** C1: [_sign_payload] hands the signer the message
    [P ++ str(T) ++ utf8(A)], in that order, with [str(T)] the canonical
    decimal numeral of a non-negative [T]; it returns the base-64 text of
    [r ++ s], where [r] is the first 32 bytes of the raw signature of that
    message under SHA-256 and [s] is the 32-byte big-endian form of the
    low-S value of its last 32 bytes. *)
Theorem sign_payload_canonical_message (self : GonkaClient) (P : bytes) (T : Z)
    (A : string) (sk : SigningKey) :
  private_key_scalar (private_key self) = inr sk ->
  let sig :=
    sign_deterministic sk (P ++ str_encode (py_str T) ++ str_encode A) hashlib_sha256 in
  exists r s : bytes,
    r = firstn 32 sig /\ length r = 32%nat
    /\ length s = 32%nat
    /\ int_from_bytes s = low_s (int_from_bytes (skipn 32 sig))
    /\ _sign_payload self P T A = inr (string_of_list_byte (b64encode (r ++ s)))
    /\ (0 <= T -> canonical_decimal (py_str T) /\ decimal_value (py_str T) = Some T).
Proof.
  intros Hkey sig.
  pose proof (private_key_scalar_range _ _ Hkey) as Hsk.
  destruct (sign_format sk (signing_message P T A) hashlib_sha256 Hsk) as [Hlen Hs].
  pose proof (low_s_range _ Hs) as Hlow.
  pose proof order_below_2_256 as Hord.
  exists (firstn 32 sig), (be_bytes 32 (low_s (int_from_bytes (skipn 32 sig)))).
  split; [reflexivity|].
  split; [rewrite length_firstn; unfold sig, signing_message in *; lia|].
  split; [apply length_be_bytes|].
  split.
  - apply int_from_be_bytes. unfold sig, signing_message in *.
    assert (0 <= SECP256k1_order / 2) by (apply Z.div_pos; lia).
    assert (SECP256k1_order / 2 <= SECP256k1_order)
      by (apply Z.div_le_upper_bound; lia).
    lia.
  - split.
    + exact (sign_payload_eq self P T A sk Hkey).
    + intros HT. split; [now apply py_str_canonical | apply decimal_value_py_str].
Qed.

(** C2: the text [_sign_payload] returns decodes from base-64 to 64
    bytes, and the last 32 of them, read big-endian, are an integer in
    [1, order / 2]. *)
Theorem signature_is_low_s (self : GonkaClient) (P : bytes) (T : Z) (A : string)
    (sk : SigningKey) :
  private_key_scalar (private_key self) = inr sk ->
  exists (signature : string) (raw : bytes),
    _sign_payload self P T A = inr signature
    /\ b64decode (str_encode signature) = Some raw
    /\ length raw = 64%nat
    /\ 1 <= int_from_bytes (skipn 32 raw) <= SECP256k1_order / 2.
Proof.
  intros Hkey.
  pose proof (private_key_scalar_range _ _ Hkey) as Hsk.
  destruct (sign_format sk (signing_message P T A) hashlib_sha256 Hsk) as [Hlen Hs].
  pose proof (low_s_range _ Hs) as Hlow.
  pose proof order_below_2_256 as Hord.
  set (sig := sign_deterministic sk (signing_message P T A) hashlib_sha256) in *.
  set (s := be_bytes 32 (low_s (int_from_bytes (skipn 32 sig)))).
  exists (string_of_list_byte (b64encode (firstn 32 sig ++ s))), (firstn 32 sig ++ s).
  split; [exact (sign_payload_eq self P T A sk Hkey)|].
  split.
  - unfold str_encode. rewrite list_byte_of_string_of_list_byte.
    apply b64decode_encode.
  - assert (length (firstn 32 sig) = 32%nat) as Hr by (rewrite length_firstn; lia).
    split.
    + rewrite length_app, Hr. unfold s. rewrite length_be_bytes. reflexivity.
    + pose proof (drop_app_length (firstn 32 sig) s) as Hskip.
      rewrite Hr in Hskip. rewrite Hskip.
      unfold s. rewrite int_from_be_bytes; [exact Hlow|].
      assert (SECP256k1_order / 2 <= SECP256k1_order)
        by (apply Z.div_le_upper_bound; lia).
      lia.
Qed.

(** ** Timestamps and signatures *)

Lemma pigeonhole (n : nat) :
  forall f : nat -> nat,
    (forall i, (i <= n)%nat -> (f i < n)%nat) ->
    exists i j, (i < j <= n)%nat /\ f i = f j.
Proof.
  induction n as [|m IH]; intros f Hf.
  - specialize (Hf 0%nat (Nat.le_refl _)). lia.
  - assert (Hsearch : forall k, (k <= S m)%nat ->
              (exists i, (i < k)%nat /\ f i = f (S m))
              \/ (forall i, (i < k)%nat -> f i <> f (S m))).
    { induction k as [|k IHk]; intros Hk.
      - right. intros i Hi. lia.
      - destruct IHk as [(i & Hi & E)|Hno]; [lia | left; exists i; split; [lia|exact E] |].
        destruct (Nat.eq_dec (f k) (f (S m))) as [E|NE].
        + left. exists k. split; [lia|exact E].
        + right. intros i Hi. destruct (Nat.eq_dec i k) as [->|]; [exact NE|].
          apply Hno. lia. }
    destruct (Hsearch (S m) (Nat.le_refl _)) as [(i & Hi & E)|Hno].
    + exists i, (S m). split; [lia|exact E].
    + set (v := f (S m)).
      destruct (IH (fun i => if (f i <? v)%nat then f i else (f i - 1)%nat)) as (i & j & Hij & E).
      * intros i Hi. pose proof (Hf i ltac:(lia)). pose proof (Hf (S m) ltac:(lia)).
        pose proof (Hno i ltac:(lia)). fold v in H0, H1.
        destruct (Nat.ltb_spec (f i) v); lia.
      * exists i, j. split; [lia|].
        pose proof (Hno i ltac:(lia)). pose proof (Hno j ltac:(lia)). fold v in H, H0.
        destruct (Nat.ltb_spec (f i) v), (Nat.ltb_spec (f j) v); lia.
Qed.

(** Over the unbounded integers there are more timestamps than
    signatures; the pair this finds is not bounded by any clock. *)
Lemma timestamp_collision (self : GonkaClient) (P : bytes) (C : string)
    (sk : SigningKey) :
  private_key_scalar (private_key self) = inr sk ->
  exists T1 T2, 0 <= T1 < T2 /\ _sign_payload self P T1 C = _sign_payload self P T2 C.
Proof.
  intros Hkey.
  pose proof (private_key_scalar_range _ _ Hkey) as Hsk.
  set (raw := fun T : Z =>
         let sig := sign_deterministic sk (signing_message P T C) hashlib_sha256 in
         firstn 32 sig ++ be_bytes 32 (low_s (int_from_bytes (skipn 32 sig)))).
  assert (Hlen : forall T, length (raw T) = 64%nat).
  { intros T. unfold raw. cbv zeta.
    destruct (sign_format sk (signing_message P T C) hashlib_sha256 Hsk) as [Hl _].
    rewrite length_app, length_firstn, length_be_bytes. lia. }
  assert (Hsig : forall T, _sign_payload self P T C
                           = inr (string_of_list_byte (b64encode (raw T)))).
  { intros T. exact (sign_payload_eq self P T C sk Hkey). }
  assert (Hrange : forall T, 0 <= int_from_bytes (raw T) < 256 ^ 64).
  { intros T. pose proof (int_from_bytes_range (raw T)) as H.
    rewrite Hlen in H. exact H. }
  assert (Hpos : 0 < 256 ^ 64) by (apply Z.pow_pos_nonneg; lia).
  generalize dependent (256 ^ 64). intros B Hrange HB.
  destruct (pigeonhole (Z.to_nat B)
              (fun i => Z.to_nat (int_from_bytes (raw (Z.of_nat i)))))
    as (i & j & Hij & E).
  - intros i _. pose proof (Hrange (Z.of_nat i)). lia.
  - exists (Z.of_nat i), (Z.of_nat j). split; [lia|].
    rewrite !Hsig. do 3 f_equal.
    apply int_from_bytes_inj; [now rewrite !Hlen|].
    pose proof (Hrange (Z.of_nat i)). pose proof (Hrange (Z.of_nat j)). lia.
Qed.

(** Two different timestamps give two different signed messages, and the
    two signature texts are equal exactly when the signer returns, for
    these two messages, the same [r] and the same [s] up to low-S form:
    whether two timestamps can share a signature is a question about the
    signer alone. *)
Lemma distinct_timestamps_distinct_messages (self : GonkaClient) (P : bytes)
    (C : string) (T1 T2 : Z) (sk : SigningKey) :
  private_key_scalar (private_key self) = inr sk ->
  T1 <> T2 ->
  let sig1 := sign_deterministic sk (signing_message P T1 C) hashlib_sha256 in
  let sig2 := sign_deterministic sk (signing_message P T2 C) hashlib_sha256 in
  signing_message P T1 C <> signing_message P T2 C
  /\ (_sign_payload self P T1 C = _sign_payload self P T2 C
      <-> firstn 32 sig1 = firstn 32 sig2
          /\ low_s (int_from_bytes (skipn 32 sig1))
             = low_s (int_from_bytes (skipn 32 sig2))).
Proof.
  intros Hkey Hneq sig1 sig2. split.
  - intros E. apply Hneq. exact (signing_message_timestamp_inj P C T1 T2 E).
  - pose proof (private_key_scalar_range _ _ Hkey) as Hsk.
    destruct (sign_format sk (signing_message P T1 C) hashlib_sha256 Hsk) as [Hl1 Hs1].
    destruct (sign_format sk (signing_message P T2 C) hashlib_sha256 Hsk) as [Hl2 Hs2].
    fold sig1 in Hl1, Hs1. fold sig2 in Hl2, Hs2.
    rewrite (sign_payload_eq self P T1 C sk Hkey), (sign_payload_eq self P T2 C sk Hkey).
    fold sig1 sig2. split.
    + intros E.
      set (s1 := be_bytes 32 (low_s (int_from_bytes (skipn 32 sig1)))) in *.
      set (s2 := be_bytes 32 (low_s (int_from_bytes (skipn 32 sig2)))) in *.
      assert (firstn 32 sig1 ++ s1 = firstn 32 sig2 ++ s2) as E'
        by (apply b64encode_inj, string_of_list_byte_inj; congruence).
      assert (length (firstn 32 sig1) = length (firstn 32 sig2)) as Hlr
        by (rewrite !length_firstn; lia).
      destruct (app_inj_1 _ _ _ _ Hlr E') as [Er Es].
      split; [exact Er|].
      pose proof (f_equal int_from_bytes Es) as Ei. subst s1 s2.
      pose proof (low_s_range _ Hs1). pose proof (low_s_range _ Hs2).
      pose proof order_below_2_256.
      assert (SECP256k1_order / 2 <= SECP256k1_order)
        by (apply Z.div_le_upper_bound; lia).
      rewrite !int_from_be_bytes in Ei by lia. exact Ei.
    + intros [Er Es]. now rewrite Er, Es.
Qed.


(* ================================================================== *)
(** * The clock                                                       *)
(* ================================================================== *)

Lemma hybrid_timestamps_eq (self : GonkaClient) (n : nat) :
  forall w, exists w',
    hybrid_timestamps self n w
    = (inr (map (fun k => _wall_base self + (perf_counter_ns w k - _perf_base self))
              (seq (perf_reads w) n)), w').
Proof.
  induction n as [|n IH]; intros w.
  - exists w. reflexivity.
  - cbn [hybrid_timestamps]. unfold bind at 1.
    unfold _hybrid_timestamp_ns, bind at 1, time_perf_counter_ns, ret at 1.
    destruct (IH (tick_perf w)) as (w' & E). unfold bind at 1. rewrite E.
    exists w'. reflexivity.
Qed.

Lemma sorted_map_seq (f : nat -> Z) :
  (forall i j, (i <= j)%nat -> f i <= f j) ->
  forall n a, StronglySorted Z.le (map f (seq a n)).
Proof.
  intros Hmono. induction n as [|n IH]; intros a; cbn [seq map].
  - constructor.
  - constructor; [apply IH|].
    apply List.Forall_forall. intros x Hx. apply in_map_iff in Hx as (k & <- & Hk).
    apply in_seq in Hk. apply Hmono. lia.
Qed.

(** C5: within one process, where the monotonic clock never goes back,
    every call of [_hybrid_timestamp_ns] returns at least what each
    earlier call returned; and the values depend on the monotonic clock
    alone, so that a process whose wall clock reads differently after the
    client was built gets the same ones. *)
Theorem hybrid_timestamps_non_decreasing (self : GonkaClient) (n : nat) (w : World) :
  monotonic_clock w ->
  exists ts w',
    hybrid_timestamps self n w = (inr ts, w')
    /\ length ts = n
    /\ StronglySorted Z.le ts
    /\ forall w2,
         perf_counter_ns w2 = perf_counter_ns w ->
         perf_reads w2 = perf_reads w ->
         fst (hybrid_timestamps self n w2) = inr ts.
Proof.
  intros Hmono. destruct (hybrid_timestamps_eq self n w) as (w' & E).
  eexists _, w'. split; [exact E|]. split; [|split].
  - now rewrite length_map, length_seq.
  - apply (sorted_map_seq
             (fun k => _wall_base self + (perf_counter_ns w k - _perf_base self))).
    intros i j Hij. specialize (Hmono i j Hij). lia.
  - intros w2 Hclock Hreads.
    destruct (hybrid_timestamps_eq self n w2) as (w2' & E2).
    rewrite E2, Hclock, Hreads. reflexivity.
Qed.


(* ================================================================== *)
(** * Malformed private keys                                          *)
(* ================================================================== *)

Lemma hex_digit_not_space (c : ascii) : is_hex_digit c = true -> is_space c = false.
Proof.
  unfold is_hex_digit, hex_digit_value, is_space.
  set (n := N_of_ascii c).
  destruct (Z.leb_spec 48 (Z.of_N n)), (Z.leb_spec (Z.of_N n) 57),
    (Z.leb_spec 97 (Z.of_N n)), (Z.leb_spec (Z.of_N n) 102),
    (Z.leb_spec 65 (Z.of_N n)), (Z.leb_spec (Z.of_N n) 70);
    cbn [andb]; intros Hhex; try discriminate Hhex;
    destruct (N.eqb_spec n 32), (N.leb_spec 9 n), (N.leb_spec n 13);
    cbn [andb orb]; try reflexivity; lia.
Qed.

Lemma fromhex_non_hex (s : string) :
  str_forallb (fun c => is_hex_digit c || is_space c) s = false ->
  bytes_fromhex s = inl fromhex_error.
Proof.
  enough (H : (str_forallb (fun c => is_hex_digit c || is_space c) s = false ->
               bytes_fromhex s = inl fromhex_error)
              /\ forall c,
                   str_forallb (fun c => is_hex_digit c || is_space c) (String c s) = false ->
                   bytes_fromhex (String c s) = inl fromhex_error)
    by apply H.
  induction s as [|c' s [IH0 IH1]].
  - split; [discriminate|].
    intros c. cbn [str_forallb bytes_fromhex]. unfold is_hex_digit.
    destruct (is_space c); [rewrite orb_true_r; discriminate|].
    destruct (hex_digit_value c); [discriminate | reflexivity].
  - split; [apply IH1|].
    intros c. cbn [str_forallb]. cbn [bytes_fromhex]. unfold is_hex_digit at 1.
    destruct (is_space c).
    + rewrite orb_true_r. cbn [andb]. apply IH1.
    + destruct (hex_digit_value c); [|reflexivity].
      cbn [orb andb]. unfold is_hex_digit at 1.
      destruct (hex_digit_value c') eqn:Ec'; [|reflexivity].
      destruct (is_space c'); cbn [orb andb]; intros H; now rewrite (IH0 H).
Qed.

Lemma fromhex_hex_length (s : string) :
  str_forallb is_hex_digit s = true ->
  bytes_fromhex s = inl fromhex_error
  \/ exists bs, bytes_fromhex s = inr bs /\ (2 * length bs = String.length s)%nat.
Proof.
  enough (H : (str_forallb is_hex_digit s = true ->
               bytes_fromhex s = inl fromhex_error
               \/ exists bs, bytes_fromhex s = inr bs
                             /\ (2 * length bs = String.length s)%nat)
              /\ forall c,
                   str_forallb is_hex_digit (String c s) = true ->
                   bytes_fromhex (String c s) = inl fromhex_error
                   \/ exists bs, bytes_fromhex (String c s) = inr bs
                                 /\ (2 * length bs = String.length (String c s))%nat)
    by apply H.
  induction s as [|c' s [IH0 IH1]].
  - split; [intros _; right; exists []; split; reflexivity|].
    intros c. cbn [str_forallb]. rewrite andb_true_r. intros Hc.
    cbn [bytes_fromhex]. rewrite (hex_digit_not_space c Hc).
    unfold is_hex_digit in Hc. destruct (hex_digit_value c); [|discriminate].
    left. reflexivity.
  - split; [apply IH1|].
    intros c. cbn [str_forallb]. intros H.
    apply andb_true_iff in H as [Hc H]. apply andb_true_iff in H as [Hc' Hs].
    cbn [bytes_fromhex]. rewrite (hex_digit_not_space c Hc).
    unfold is_hex_digit in Hc, Hc'.
    destruct (hex_digit_value c); [|discriminate].
    destruct (hex_digit_value c'); [|discriminate].
    destruct (IH0 Hs) as [E|(bs & E & Hlen)]; rewrite E.
    + left. reflexivity.
    + right. eexists. split; [reflexivity|]. cbn [length String.length]. lia.
Qed.

Lemma malformed_key_no_scalar (key : string) :
  malformed_key key = true ->
  exists e, private_key_scalar key = inl e
            /\ (e = fromhex_error \/ exists msg, e = MalformedPointError msg).
Proof.
  unfold malformed_key, non_hex_key, wrong_length_key, private_key_scalar.
  intros H. apply orb_true_iff in H as [H|H].
  - apply negb_true_iff in H. rewrite (fromhex_non_hex _ H).
    exists fromhex_error. split; [reflexivity | now left].
  - apply andb_true_iff in H as [Hhex Hlen]. apply negb_true_iff in Hlen.
    apply Nat.eqb_neq in Hlen.
    destruct (fromhex_hex_length _ Hhex) as [E|(bs & E & Hbs)]; rewrite E.
    + exists fromhex_error. split; [reflexivity | now left].
    + cbn [rbind]. unfold SigningKey_from_string.
      destruct (Nat.eqb_spec (length bs) 32) as [E32|NE]; [lia|].
      cbn [negb]. eexists. split; [reflexivity|]. right. eexists. reflexivity.
Qed.

Lemma sign_payload_key_error (self : GonkaClient) (e : exn) :
  private_key_scalar (private_key self) = inl e ->
  forall P T A, _sign_payload self P T A = inl e.
Proof.
  unfold private_key_scalar, _sign_payload. intros H P T A.
  destruct (bytes_fromhex (strip_0x (private_key self))) as [e'|kb]; cbn [rbind] in *.
  - injection H as ->. reflexivity.
  - rewrite H. reflexivity.
Qed.

(** C6, as the code has it: [__init__] stores the key text unread, so it
    returns a client whatever the key; with a key that has a
    non-hexadecimal character or the wrong number of digits, it is every
    call of [_sign_payload] that raises, with the [ValueError] of
    [bytes.fromhex] or the [MalformedPointError] of
    [SigningKey.from_string]. *)
Theorem malformed_key_fails_when_signing (key address endpoint provider : string)
    (timeout : float) (w : World) :
  malformed_key key = true ->
  exists self w' e,
    __init__ key address endpoint provider timeout w = (inr self, w')
    /\ private_key self = key
    /\ (e = fromhex_error \/ exists msg, e = MalformedPointError msg)
    /\ forall P T A, _sign_payload self P T A = inl e.
Proof.
  intros Hbad. destruct (malformed_key_no_scalar key Hbad) as (e & He & Hkind).
  eexists _, _, e. split; [reflexivity|]. cbn [private_key].
  split; [reflexivity|]. split; [exact Hkind|].
  apply sign_payload_key_error. exact He.
Qed.


(* ================================================================== *)
(** * What a request puts on the wire                                 *)
(* ================================================================== *)

Lemma sent_requests_app (a b : list Event) :
  sent_requests (a ++ b) = sent_requests a ++ sent_requests b.
Proof.
  induction a as [|[] a IH]; cbn [sent_requests app]; now rewrite ?IH.
Qed.

Lemma yielded_chunks_app (a b : list Event) :
  yielded_chunks (a ++ b) = yielded_chunks a ++ yielded_chunks b.
Proof.
  induction a as [|[] a IH]; cbn [yielded_chunks app]; now rewrite ?IH.
Qed.

Lemma error_body_reads_app (a b : list Event) :
  error_body_reads (a ++ b) = (error_body_reads a + error_body_reads b)%nat.
Proof.
  induction a as [|[] a IH]; cbn [error_body_reads app]; now rewrite ?IH.
Qed.

Lemma sent_requests_yields (chunks : list bytes) :
  sent_requests (map EvYield chunks) = [].
Proof.
  induction chunks as [|c rest IH]; [reflexivity | exact IH].
Qed.

Lemma yielded_chunks_yields (chunks : list bytes) :
  yielded_chunks (map EvYield chunks) = chunks.
Proof.
  induction chunks as [|c rest IH]; [reflexivity|].
  cbn [map yielded_chunks]. now rewrite IH.
Qed.

(** Unfold the monad and the straight-line code of the client, leaving
    the signer, the codecs and the state transformers folded. *)
Ltac run_client :=
  cbv beta iota zeta delta
    [request request_stream _prepare_request _hybrid_timestamp_ns
     log_request_body client_request client_stream aread log_and_reraise
     raise_for_status json_loads json_loads_bytes bytes_decode
     bind ret raise lift try_except except_Exception emit log get_world
     time_perf_counter_ns is_Exception fst snd].

Ltac world_simpl :=
  cbv beta iota delta
    [add_events tick_perf tick_wall with_gonka_client with_available_models
     time_ns perf_counter_ns wall_reads perf_reads upstream trace settings
     gonka_client available_models status_code body_chunks body_failure
     fst snd].

Lemma signed_headers_lookup (signature address : string) (timestamp_ns : Z) :
  signed_headers signature address timestamp_ns !! "Authorization" = Some signature
  /\ signed_headers signature address timestamp_ns !! "X-Timestamp"
     = Some (py_str timestamp_ns).
Proof.
  unfold signed_headers. split.
  - rewrite lookup_insert_ne by discriminate.
    rewrite lookup_insert_ne by discriminate.
    apply lookup_insert_eq.
  - apply lookup_insert_eq.
Qed.

(** Decide the tests the unfolded code is stuck on. *)
Ltac case_split :=
  match goal with
  | |- context [match json_parse ?x with _ => _ end] => destruct (json_parse x)
  | |- context [match json_text ?x with _ => _ end] => destruct (json_text x)
  | |- context [match ?x with ConnectFailed _ => _ | Responded _ => _ end] =>
    let o := fresh "response" in destruct x as [?|o] eqn:?; [|destruct o]
  | |- context [match ?f with Some _ => _ | None => _ end] =>
    is_var f; destruct f
  | |- context [if ?b then _ else _] => destruct b eqn:?
  end.

Lemma add_events_nil (w : World) : add_events w [] = w.
Proof.
  destruct w. unfold add_events. cbn. now rewrite app_nil_r.
Qed.

Lemma add_events_app (w : World) (a b : list Event) :
  add_events (add_events w a) b = add_events w (a ++ b).
Proof.
  unfold add_events. cbn. now rewrite app_assoc.
Qed.

Lemma yield_chunks_run (chunks : list bytes) (failure : option string) :
  forall w,
    yield_chunks chunks failure w
    = (match failure with
       | Some detail => inl (TransportError detail)
       | None => inr tt
       end, add_events w (map EvYield chunks)).
Proof.
  induction chunks as [|c rest IH]; intros w; cbn [yield_chunks map].
  - rewrite add_events_nil. now destruct failure.
  - unfold bind, emit. rewrite IH, add_events_app. reflexivity.
Qed.

(** Run the unfolded code to its leaves; [yields] is the equation of
    [yield_chunks]. *)
Ltac run_with yields :=
  repeat (run_client; world_simpl; rewrite ?yields; try case_split).

Lemma request_signed_exchange (self : GonkaClient) (method path : string)
    (payload : option json) (w : World) :
  signed_exchange self payload w (snd (request self method path payload w)).
Proof.
  destruct w as [tn pc wr pr up tr st gc am].
  unfold signed_exchange. cbv zeta. run_client. world_simpl.
  destruct (_sign_payload self _ _ (provider_address self)) as [e|signature].
  - repeat split; reflexivity.
  - destruct (signed_headers_lookup signature (address self)
                (_wall_base self + (pc pr - _perf_base self)))
      as [Hauth Hts].
    run_with yield_chunks_run;
      (split; [reflexivity|]); (split; [reflexivity|]); eexists;
      rewrite ?sent_requests_app; cbn [sent_requests];
      rewrite ?app_nil_r; (split; [reflexivity|]);
      cbn [req_content req_headers]; auto.
Qed.

Lemma request_stream_signed_exchange (self : GonkaClient) (method path : string)
    (payload : option json) (w : World) :
  signed_exchange self payload w (snd (request_stream self method path payload w)).
Proof.
  destruct w as [tn pc wr pr up tr st gc am].
  unfold signed_exchange. cbv zeta. run_client. world_simpl.
  destruct (_sign_payload self _ _ (provider_address self)) as [e|signature].
  - repeat split; reflexivity.
  - destruct (signed_headers_lookup signature (address self)
                (_wall_base self + (pc pr - _perf_base self)))
      as [Hauth Hts].
    run_with yield_chunks_run;
      (split; [reflexivity|]); (split; [reflexivity|]); eexists;
      rewrite ?sent_requests_app, ?sent_requests_yields; cbn [sent_requests];
      rewrite ?app_nil_r; (split; [reflexivity|]);
      cbn [req_content req_headers]; auto.
Qed.

(** C7: for a buffered and for a streamed request alike, the monotonic
    clock is read exactly once, and the request that goes out carries in
    [X-Timestamp] the decimal text of the timestamp that [_sign_payload]
    was given to produce its [Authorization]. *)
Theorem timestamp_header_is_signed_timestamp (self : GonkaClient)
    (method path : string) (payload : option json) (w : World) :
  signed_exchange self payload w (snd (request self method path payload w))
  /\ signed_exchange self payload w (snd (request_stream self method path payload w)).
Proof.
  split.
  - apply request_signed_exchange.
  - apply request_stream_signed_exchange.
Qed.



(* ================================================================== *)
(** * What the client raises, and what it leaves alone                *)
(* ================================================================== *)

Lemma bytes_fromhex_error (s : string) (e : exn) :
  bytes_fromhex s = inl e -> e = fromhex_error.
Proof.
  enough (H : (forall e, bytes_fromhex s = inl e -> e = fromhex_error)
              /\ forall c e, bytes_fromhex (String c s) = inl e -> e = fromhex_error)
    by (apply H).
  clear e. induction s as [|c' s [IH0 IH1]].
  - split; [discriminate|].
    intros c e. cbn [bytes_fromhex].
    destruct (is_space c); [discriminate|].
    destruct (hex_digit_value c); congruence.
  - split; [apply IH1|].
    intros c e. cbn [bytes_fromhex].
    destruct (is_space c); [apply IH1|].
    destruct (hex_digit_value c); [|congruence].
    destruct (hex_digit_value c'); [|congruence].
    destruct (bytes_fromhex s) as [e'|bs] eqn:E; [|discriminate].
    intros [= <-]. now apply IH0.
Qed.

Lemma sign_payload_raises_Exception (self : GonkaClient) (P : bytes) (T : Z)
    (A : string) (e : exn) :
  _sign_payload self P T A = inl e -> is_Exception e = true.
Proof.
  unfold _sign_payload.
  destruct (bytes_fromhex (strip_0x (private_key self))) as [e'|kb] eqn:Ehex;
    cbn [rbind].
  - intros [= <-]. now rewrite (bytes_fromhex_error _ _ Ehex).
  - unfold SigningKey_from_string.
    destruct (negb (Nat.eqb (length kb) 32)); cbn [rbind]; [now intros [= <-]|].
    destruct ((1 <=? int_from_bytes kb) && (int_from_bytes kb <? SECP256k1_order));
      cbn [rbind]; [|now intros [= <-]].
    cbv zeta. unfold int_to_bytes, bytes_decode.
    repeat match goal with
           | |- context [if ?b then _ else _] => destruct b; cbn [rbind]
           end; now intros [= <-].
Qed.

Lemma request_raises_Exception (self : GonkaClient) (method path : string)
    (payload : option json) (w : World) (e : exn) :
  fst (request self method path payload w) = inl e -> is_Exception e = true.
Proof.
  destruct w as [tn pc wr pr up tr st gc am].
  run_client. world_simpl.
  destruct (_sign_payload self _ _ (provider_address self)) as [e'|signature] eqn:Hsign.
  - run_client. intros [= <-]. exact (sign_payload_raises_Exception _ _ _ _ _ Hsign).
  - run_with yield_chunks_run; now intros [= <-].
Qed.

(** C8: [get_models] returns a value whatever its request does.  When the
    request fails, by a signing error, a transport failure, an error
    status or an unreadable body, the value is the empty list; when the
    response is an object, the value is the list under ["models"], and
    the empty list when there is no such entry. *)
Theorem get_models_never_raises (self : GonkaClient) (w : World) :
  exists models,
    fst (get_models self w) = inr models
    /\ (forall e,
          fst (request self "GET" "/models" (Some (JObj [])) w) = inl e ->
          models = JArr [])
    /\ (forall fields items,
          fst (request self "GET" "/models" (Some (JObj [])) w) = inr (JObj fields) ->
          assoc_lookup "models" fields = Some (JArr items) ->
          models = JArr items)
    /\ (forall fields,
          fst (request self "GET" "/models" (Some (JObj [])) w) = inr (JObj fields) ->
          assoc_lookup "models" fields = None ->
          models = JArr []).
Proof.
  pose proof (request_raises_Exception self "GET" "/models" (Some (JObj [])) w) as Hexn.
  unfold get_models, try_except, bind at 1.
  destruct (request self "GET" "/models" (Some (JObj [])) w) as [[e|response] w1].
  - cbn [fst] in Hexn. unfold except_Exception. rewrite (Hexn e eq_refl).
    exists (JArr []). cbn. repeat split; intros; congruence.
  - clear Hexn. cbn [fst].
    destruct response as [| | | | |items|fields];
      try (exists (JArr []); cbn; repeat split; intros; congruence).
    cbn [json_get]. destruct (assoc_lookup "models" fields) as [models|] eqn:Hlookup.
    + destruct models as [| | | |s|items|fs];
        try (exists (JArr []); cbn; repeat split; intros; congruence).
      * exists (JStr s). cbn. repeat split; intros; congruence.
      * exists (JArr items). cbn. repeat split; intros; congruence.
      * exists (JObj fs). cbn. repeat split; intros; congruence.
    + exists (JArr []). cbn. repeat split; intros; congruence.
Qed.


(** ** The module globals *)

Lemma request_keeps_globals (self : GonkaClient) (method path : string)
    (payload : option json) (w : World) :
  keeps_globals w (snd (request self method path payload w)).
Proof.
  destruct w as [tn pc wr pr up tr st gc am]. unfold keeps_globals.
  run_client. world_simpl.
  destruct (_sign_payload self _ _ (provider_address self)) as [e|signature].
  - split; reflexivity.
  - run_with yield_chunks_run; split; reflexivity.
Qed.

Lemma request_stream_keeps_globals (self : GonkaClient) (method path : string)
    (payload : option json) (w : World) :
  keeps_globals w (snd (request_stream self method path payload w)).
Proof.
  destruct w as [tn pc wr pr up tr st gc am]. unfold keeps_globals.
  run_client. world_simpl.
  destruct (_sign_payload self _ _ (provider_address self)) as [e|signature].
  - split; reflexivity.
  - run_with yield_chunks_run; split; reflexivity.
Qed.

Lemma keeps_globals_add_events (w w' : World) (evs : list Event) :
  keeps_globals w w' -> keeps_globals w (add_events w' evs).
Proof.
  intros H. exact H.
Qed.

Lemma get_models_keeps_globals (self : GonkaClient) (w : World) :
  keeps_globals w (snd (get_models self w)).
Proof.
  pose proof (request_keeps_globals self "GET" "/models" (Some (JObj [])) w) as Hreq.
  unfold get_models, try_except, except_Exception, bind, lift, ret, log, emit.
  destruct (request self "GET" "/models" (Some (JObj [])) w) as [[e|response] w1];
    cbn [snd] in Hreq.
  - destruct (is_Exception e); exact Hreq.
  - destruct (json_get response "models" (JArr [])) as [e|models];
      [destruct (is_Exception e); exact Hreq|].
    destruct (py_len models) as [e|n]; [destruct (is_Exception e)|]; exact Hreq.
Qed.

Lemma generate_keeps_globals (client : GonkaClient) (body : json) (w : World) :
  keeps_globals w (snd (generate client body w)).
Proof.
  pose proof (request_stream_keeps_globals client "POST" "/chat/completions"
                (Some body) w) as Hreq.
  unfold generate, try_except, except_Exception, bind, raise, log, emit.
  destruct (request_stream client "POST" "/chat/completions" (Some body) w)
    as [[e|[]] w1]; cbn [snd] in Hreq; [|exact Hreq].
  destruct (is_Exception e); exact Hreq.
Qed.


(* ================================================================== *)
(** * The chat-completions handler on an unconfigured server          *)
(* ================================================================== *)

Ltac run_main :=
  cbv beta iota zeta delta
    [post_chat_completions chat_completions verify_api_key get_gonka_client
     _create_gonka_client __init__ lifespan request_json json_loads
     bind ret raise lift try_except except_Exception emit log get_world
     time_perf_counter_ns time_time_ns set_gonka_client set_available_models
     fst snd].

(** Decide what the unfolded handler is stuck on; [Hrequest] and
    [Hmodels] say what [request] and [get_models] leave alone. *)
Ltac main_split Hrequest Hmodels :=
  match goal with
  | |- context [request ?c ?m ?p ?pl ?W] =>
    let H := fresh "Hkeep" in
    pose proof (Hrequest c m p pl W) as H;
    destruct (request c m p pl W) as [[?|?] ?]; cbn [snd] in H
  | |- context [get_models ?c ?W] =>
    let H := fresh "Hkeep" in
    pose proof (Hmodels c W) as H;
    destruct (get_models c W) as [[?|?] ?]; cbn [snd] in H
  | |- context [match json_parse ?x with _ => _ end] => destruct (json_parse x)
  | |- context [match json_loads_bytes ?x with _ => _ end] =>
    destruct (json_loads_bytes x)
  | |- context [match json_get ?v ?k ?d with _ => _ end] => destruct (json_get v k d)
  | |- context [match py_len ?v with _ => _ end] => destruct (py_len v)
  | |- context [match ?f with Some _ => _ | None => _ end] => is_var f; destruct f
  | |- context [if ?b then _ else _] => destruct b eqn:?
  end.

Ltac run_main_with Hrequest Hmodels :=
  repeat (run_main; world_simpl; try main_split Hrequest Hmodels).

Ltac close_step :=
  unfold main_step, keeps_globals in *; world_simpl;
  cbn [settings gonka_client] in *;
  repeat match goal with
         | H : negb _ = false |- _ => apply negb_false_iff in H
         end;
  intuition (try congruence).

Lemma lifespan_main_step (w : World) : main_step w (snd (lifespan w)).
Proof.
  destruct w as [tn pc wr pr up tr st gc am].
  run_main_with request_keeps_globals get_models_keeps_globals; close_step.
Qed.

Lemma post_chat_completions_main_step (req : Request) (credentials : option string)
    (w : World) :
  main_step w (snd (post_chat_completions req credentials w)).
Proof.
  destruct w as [tn pc wr pr up tr st gc am].
  run_main_with request_keeps_globals get_models_keeps_globals; close_step.
Qed.

Lemma reachable_client_configured (w : World) :
  reachable w ->
  gonka_client w = None \/ configuration_complete (settings w) = true.
Proof.
  induction 1 as [w H|w _ IH|w req credentials _ IH|w client body _ IH].
  - now left.
  - destruct (lifespan_main_step w) as [Hs [Hc|Hc]];
      rewrite ?Hs, ?Hc; tauto.
  - destruct (post_chat_completions_main_step req credentials w) as [Hs [Hc|Hc]];
      rewrite ?Hs, ?Hc; tauto.
  - destruct (generate_keeps_globals client body w) as [Hs Hc].
    rewrite Hs, Hc. exact IH.
Qed.

Lemma str_falsy_iff (s : string) : str_falsy s = true <-> s = "".
Proof.
  unfold str_falsy. apply String.eqb_eq.
Qed.

Lemma verify_api_key_world (req : Request) (credentials : option string) (w : World) :
  snd (verify_api_key req credentials w) = w
  /\ forall e, fst (verify_api_key req credentials w) = inl e ->
               exists status detail,
                 e = HTTPException status detail /\ (status = 500 \/ status = 401).
Proof.
  unfold verify_api_key, bind, get_world, raise, ret.
  repeat match goal with
         | |- context [if ?b then _ else _] => destruct b
         | |- context [match ?x with Some _ => _ | None => _ end] => destruct x
         end; cbn [fst snd]; (split; [reflexivity|]); intros e [= <-]; eauto.
Qed.

Lemma missing_settings_named (s : Settings) :
  (In "GONKA_PRIVATE_KEY" (missing_settings s) <-> gonka_private_key s = "")
  /\ (In "GONKA_ADDRESS" (missing_settings s) <-> gonka_address s = "")
  /\ (In "GONKA_ENDPOINT" (missing_settings s) <-> gonka_endpoint s = "")
  /\ (In "GONKA_PROVIDER_ADDRESS (provider address in bech32 format, get it from the Gonka provider)"
        (missing_settings s)
      <-> gonka_provider_address s = "").
Proof.
  unfold missing_settings. rewrite <- !str_falsy_iff.
  destruct (str_falsy (gonka_private_key s)), (str_falsy (gonka_address s)),
    (str_falsy (gonka_endpoint s)), (str_falsy (gonka_provider_address s));
    cbn [app In]; repeat split; intros H;
    solve [ reflexivity | discriminate H | tauto
          | repeat (destruct H as [H|H]; try discriminate H); contradiction ].
Qed.

Lemma missing_settings_nonempty (s : Settings) :
  configuration_complete s = false -> missing_settings s <> [].
Proof.
  unfold configuration_complete, missing_settings.
  destruct (str_falsy (gonka_private_key s)), (str_falsy (gonka_address s)),
    (str_falsy (gonka_endpoint s)), (str_falsy (gonka_provider_address s));
    cbn; intros H; discriminate.
Qed.

(** C10: on a server where one of the four upstream settings is empty,
    the handler of [POST /v1/chat/completions] raises a 500 and leaves
    the state as it found it: the request body is neither read nor
    parsed, whatever it holds.  The detail of that 500 is the fixed text
    around a list of names, and the list holds the name of a setting
    exactly when that setting is empty.  The endpoint as a whole then
    answers with that 500 or with what [verify_api_key] raised, a 401 or a
    500, and never with the 400 of a parse error. *)
Theorem unconfigured_chat_is_500_before_body (w : World) (req : Request)
    (credentials : option string) :
  reachable w ->
  gonka_private_key (settings w) = "" \/ gonka_address (settings w) = ""
  \/ gonka_endpoint (settings w) = "" \/ gonka_provider_address (settings w) = "" ->
  exists listing : string,
    let detail :=
      "Gonka configuration incomplete. Missing: " +:+ listing
      +:+ ". GONKA_PROVIDER_ADDRESS is the Gonka provider address (bech32 format), which can be obtained from the provider or in Gonka documentation." in
    chat_completions req w = (inl (HTTPException 500 detail), w)
    /\ (str_contains listing "GONKA_PRIVATE_KEY" = true
        <-> gonka_private_key (settings w) = "")
    /\ (str_contains listing "GONKA_ADDRESS" = true
        <-> gonka_address (settings w) = "")
    /\ (str_contains listing "GONKA_ENDPOINT" = true
        <-> gonka_endpoint (settings w) = "")
    /\ (str_contains listing "GONKA_PROVIDER_ADDRESS" = true
        <-> gonka_provider_address (settings w) = "")
    /\ exists e,
         post_chat_completions req credentials w = (inl e, w)
         /\ (forall detail', e <> HTTPException 400 detail')
         /\ (fst (verify_api_key req credentials w) = inr true ->
             e = HTTPException 500 detail).
Proof.
  intros Hreach Hunset.
  assert (Hcfg : configuration_complete (settings w) = false).
  { unfold configuration_complete. rewrite <- !str_falsy_iff in Hunset.
    destruct Hunset as [H|[H|[H|H]]]; rewrite H; cbn [negb andb];
      rewrite ?andb_false_r; reflexivity. }
  assert (Hgc : gonka_client w = None).
  { destruct (reachable_client_configured w Hreach) as [H|H]; [exact H|congruence]. }
  assert (Hchat : chat_completions req w
                  = (inl (HTTPException 500
                            (incomplete_detail (missing_settings (settings w)))), w)).
  { destruct w as [tn pc wr pr up tr st gc am].
    cbn [settings gonka_client] in *. subst gc.
    run_main. world_simpl. rewrite Hcfg. reflexivity. }
  exists (str_join ", " (missing_settings (settings w))). cbv zeta.
  split; [exact Hchat|].
  assert (Hpost : exists e,
             post_chat_completions req credentials w = (inl e, w)
             /\ (forall detail', e <> HTTPException 400 detail')
             /\ (fst (verify_api_key req credentials w) = inr true ->
                 e = HTTPException 500
                       (incomplete_detail (missing_settings (settings w))))).
  { destruct (verify_api_key_world req credentials w) as [Hw Hexn].
    unfold post_chat_completions, bind.
    destruct (verify_api_key req credentials w) as [[e|ok] w1];
      cbn [fst snd] in *; subst w1.
    - exists e. split; [reflexivity|]. split; [|discriminate].
      destruct (Hexn e eq_refl) as (status & detail & -> & Hstatus).
      intros d [= -> _]. lia.
    - exists (HTTPException 500 (incomplete_detail (missing_settings (settings w)))).
      split; [exact Hchat|]. split; [discriminate | reflexivity]. }
  split; [|split; [|split; [|split; [|exact Hpost]]]].
  all: clear Hchat Hpost Hunset; rewrite <- str_falsy_iff;
    unfold configuration_complete in Hcfg; unfold missing_settings;
    destruct (str_falsy (gonka_private_key (settings w))),
      (str_falsy (gonka_address (settings w))),
      (str_falsy (gonka_endpoint (settings w))),
      (str_falsy (gonka_provider_address (settings w)));
    try discriminate Hcfg; vm_compute; split; congruence.
Qed.


(* ================================================================== *)
(** * The API key check                                               *)
(* ================================================================== *)

Lemma str_startswith_drop (p s : string) :
  str_startswith s p = true -> s = p +:+ str_drop (String.length p) s.
Proof.
  unfold str_startswith. revert s.
  induction p as [|a p IH]; intros s.
  - reflexivity.
  - destruct s as [|b s];
      cbn [String.prefix String.length str_drop String.append]; [discriminate|].
    destruct (ascii_dec a b) as [->|]; [|discriminate].
    intros H. exact (f_equal (String b) (IH s H)).
Qed.

Lemma str_startswith_app (p s : string) : str_startswith (p +:+ s) p = true.
Proof.
  unfold str_startswith.
  induction p as [|a p IH]; [now destruct s|].
  change (String.prefix (String a p) (String a (p +:+ s)) = true).
  cbn [String.prefix]. destruct (ascii_dec a a); [exact IH | congruence].
Qed.

Lemma str_drop_app (p s : string) : str_drop (String.length p) (p +:+ s) = s.
Proof.
  induction p as [|a p IH]; [now destruct s | exact IH].
Qed.

(** X1: [verify_api_key] lets through only a caller that presents the
    configured key: when it returns, it returns [True], the server has a
    key configured, and the key came as bearer credentials, as the bare
    [Authorization] header or after ["Bearer "] in that header.  The
    check changes nothing. *)
Theorem verify_api_key_sound (req : Request) (credentials : option string)
    (w w' : World) (ok : bool) :
  verify_api_key req credentials w = (inr ok, w') ->
  ok = true /\ w' = w
  /\ api_key (settings w) <> ""
  /\ (credentials = Some (api_key (settings w))
      \/ authorization req = Some (api_key (settings w))
      \/ authorization req = Some ("Bearer " +:+ api_key (settings w))).
Proof.
  unfold verify_api_key, bind, get_world, raise, ret, token_falsy.
  destruct (str_falsy (api_key (settings w))) eqn:Hkey; [discriminate|].
  assert (Hne : api_key (settings w) <> "").
  { intros E. apply str_falsy_iff in E. congruence. }
  destruct credentials as [c|], (authorization req) as [h|];
    repeat match goal with
           | |- context [if ?b then _ else _] => destruct b eqn:?
           end;
    try discriminate; intros [= <- <-]; (split; [reflexivity|]);
    (split; [reflexivity|]); (split; [exact Hne|]).
  all: repeat match goal with
         | H : negb _ = false |- _ => apply negb_false_iff in H
         | H : String.eqb _ _ = true |- _ => apply String.eqb_eq in H
         end.
  all: first
         [ left; congruence
         | right; left; congruence
         | right; right; f_equal;
           match goal with
           | Hp : str_startswith ?h _ = true, E : str_drop 7 ?h = _ |- _ =>
             rewrite <- E; exact (str_startswith_drop "Bearer " h Hp)
           end ].
Qed.

(** X2: with a key configured, [verify_api_key] accepts the key in each
    of its three forms: as bearer credentials, after ["Bearer "] in the
    [Authorization] header, and as the bare header value (when the key
    does not itself begin with ["Bearer "]). *)
Theorem verify_api_key_complete (req : Request) (credentials : option string)
    (w : World) :
  api_key (settings w) <> "" ->
  credentials = Some (api_key (settings w))
  \/ (token_falsy credentials = true
      /\ (authorization req = Some ("Bearer " +:+ api_key (settings w))
          \/ (authorization req = Some (api_key (settings w))
              /\ str_startswith (api_key (settings w)) "Bearer " = false))) ->
  verify_api_key req credentials w = (inr true, w).
Proof.
  intros Hne Hcase.
  assert (Hkey : str_falsy (api_key (settings w)) = false).
  { destruct (str_falsy (api_key (settings w))) eqn:E; [|reflexivity].
    apply str_falsy_iff in E. contradiction. }
  assert (Heq : String.eqb (api_key (settings w)) (api_key (settings w)) = true)
    by apply String.eqb_refl.
  unfold verify_api_key, bind, get_world, raise, ret. rewrite Hkey.
  destruct Hcase as [->|[Hcred [Hh|[Hh Hbare]]]].
  - cbn [token_falsy]. rewrite Hkey. cbv iota. rewrite Hkey, Heq. reflexivity.
  - rewrite Hcred, Hh.
    assert (str_falsy ("Bearer " +:+ api_key (settings w)) = false) as -> by reflexivity.
    rewrite str_startswith_app.
    change 7%nat with (String.length "Bearer "). rewrite str_drop_app.
    cbv iota. rewrite Hkey, Heq. reflexivity.
  - rewrite Hcred, Hh, Hkey, Hbare. cbv iota. rewrite Hkey, Heq. reflexivity.
Qed.


(** X3: a request that [verify_api_key] turns down goes no further: both
    authenticated endpoints answer with the exception of the check and
    leave the state as it was (no client is built, no body read, nothing
    sent upstream).  The exception is a 500 exactly when the server has no
    key configured, which is when [get_api_key_optional] gives [None],
    and a 401 otherwise. *)
Theorem rejected_request_has_no_effect (req : Request) (credentials : option string)
    (w : World) (e : exn) :
  fst (verify_api_key req credentials w) = inl e ->
  post_chat_completions req credentials w = (inl e, w)
  /\ get_v1_models req credentials w = (inl e, w)
  /\ exists status detail,
       e = HTTPException status detail
       /\ ((status = 500 /\ api_key (settings w) = ""
            /\ fst (get_api_key_optional w) = inr None)
           \/ (status = 401 /\ api_key (settings w) <> ""
               /\ fst (get_api_key_optional w) = inr (Some (api_key (settings w))))).
Proof.
  intros Hrej.
  assert (Hrun : verify_api_key req credentials w = (inl e, w)).
  { destruct (verify_api_key_world req credentials w) as [Hw _].
    destruct (verify_api_key req credentials w) as [r w1]. cbn [fst snd] in *.
    now subst. }
  split; [unfold post_chat_completions, bind; now rewrite Hrun|].
  split; [unfold get_v1_models, bind; now rewrite Hrun|].
  clear Hrun. revert Hrej.
  unfold verify_api_key, get_api_key_optional, bind, get_world, raise, ret, token_falsy.
  destruct (str_falsy (api_key (settings w))) eqn:Hkey.
  - cbn [fst]. intros [= <-]. eexists _, _. split; [reflexivity|]. left.
    apply str_falsy_iff in Hkey. auto.
  - assert (Hne : api_key (settings w) <> "").
    { intros E. apply str_falsy_iff in E. congruence. }
    destruct credentials as [c|], (authorization req) as [h|];
      repeat match goal with
             | |- context [if ?b then _ else _] => destruct b eqn:?
             end;
      cbn [fst]; try discriminate; intros [= <-];
      eexists _, _; (split; [reflexivity|]); right; auto.
Qed.


(* ================================================================== *)
(** * What the two request operations return                          *)
(* ================================================================== *)

(** X4: when the upstream answers a streamed request with a status below
    400, [request_stream] hands its consumer exactly the chunks of the
    body, unchanged and in the order they came, and reads no error body.
    It ends normally when the body ends, and with the transport error,
    after the chunks that did arrive, when the transport fails while the
    body is on its way. *)
Theorem request_stream_relays_chunks (self : GonkaClient)
    (method path : string) (payload : option json) (w : World)
    (signature : string) (r : HttpResponse) :
  let payload_bytes :=
    str_encode (json_dumps (match payload with None => JObj [] | Some p => p end)) in
  let timestamp_ns :=
    _wall_base self + (perf_counter_ns w (perf_reads w) - _perf_base self) in
  _sign_payload self payload_bytes timestamp_ns (provider_address self) = inr signature ->
  upstream w (mkHttpRequest method (endpoint self +:+ path)
                (signed_headers signature (address self) timestamp_ns) payload_bytes)
  = Responded r ->
  status_code r < 400 ->
  let outcome := request_stream self method path payload w in
  fst outcome
  = match body_failure r with
    | None => inr tt
    | Some detail => inl (TransportError detail)
    end
  /\ yielded_chunks (trace (snd outcome)) = yielded_chunks (trace w) ++ body_chunks r
  /\ error_body_reads (trace (snd outcome)) = error_body_reads (trace w).
Proof.
  destruct w as [tn pc wr pr up tr st gc am]. cbv zeta. world_simpl.
  intros Hsign Hup Hstatus.
  run_client. world_simpl. rewrite Hsign.
  destruct r as [status chunks failure]. world_simpl.
  assert (Hge : (status >=? 400) = false) by (rewrite Z.geb_leb; apply Z.leb_gt; lia).
  assert (Hreads : forall l : list bytes, error_body_reads (map EvYield l) = O)
    by (induction l; auto).
  repeat (run_client; world_simpl;
          rewrite ?yield_chunks_run, ?Hup, ?Hge; try case_split).
  all: repeat split;
    rewrite ?yielded_chunks_app, ?error_body_reads_app, ?yielded_chunks_yields, ?Hreads;
    cbn [yielded_chunks error_body_reads app]; rewrite ?app_nil_r;
    first [reflexivity | lia].
Qed.



Lemma signed_headers_shape (signature address : string) (timestamp_ns : Z) :
  size (signed_headers signature address timestamp_ns) = 4%nat
  /\ signed_headers signature address timestamp_ns !! "Content-Type"
     = Some "application/json"
  /\ signed_headers signature address timestamp_ns !! "X-Requester-Address"
     = Some address.
Proof.
  unfold signed_headers. split; [|split].
  - rewrite !map_size_insert_None, map_size_empty; [reflexivity|..];
      rewrite ?lookup_insert_ne by discriminate; apply lookup_empty.
  - rewrite !lookup_insert_ne by discriminate. apply lookup_insert_eq.
  - rewrite lookup_insert_ne by discriminate. apply lookup_insert_eq.
Qed.

(** X6: when the payload can be signed, [request] and [request_stream]
    each send one request, with the method given, the URL
    [endpoint + path] and exactly the four headers [Content-Type:
    application/json], [Authorization], [X-Requester-Address: <the
    client's address>] and [X-Timestamp]. *)
Theorem request_is_addressed (self : GonkaClient) (method path : string)
    (payload : option json) (w : World) (signature : string) :
  let payload_bytes :=
    str_encode (json_dumps (match payload with None => JObj [] | Some p => p end)) in
  let timestamp_ns :=
    _wall_base self + (perf_counter_ns w (perf_reads w) - _perf_base self) in
  _sign_payload self payload_bytes timestamp_ns (provider_address self) = inr signature ->
  addressed_exchange self method path w (snd (request self method path payload w))
  /\ addressed_exchange self method path w
       (snd (request_stream self method path payload w)).
Proof.
  destruct w as [tn pc wr pr up tr st gc am]. cbv zeta. world_simpl.
  intros Hsign. unfold addressed_exchange.
  destruct (signed_headers_shape signature (address self)
              (_wall_base self + (pc pr - _perf_base self))) as (Hsize & Hct & Hra).
  destruct (signed_headers_lookup signature (address self)
              (_wall_base self + (pc pr - _perf_base self))) as [Hauth Hts].
  split; run_client; world_simpl; rewrite Hsign;
    run_with yield_chunks_run; eexists;
    rewrite ?sent_requests_app, ?sent_requests_yields; cbn [sent_requests];
    rewrite ?app_nil_r; (split; [reflexivity|]);
    cbn [req_method req_url req_headers]; eauto 10.
Qed.


(* ================================================================== *)
(** * What the chat handler answers                                   *)
(* ================================================================== *)

Lemma json_loads_bytes_error (b : bytes) (e : exn) :
  json_loads_bytes b = inl e -> e = UnicodeDecodeError \/ e = JSONDecodeError.
Proof.
  unfold json_loads_bytes, json_loads.
  destruct (json_text b) as [text|]; [destruct (json_parse text)|];
    intros [= <-]; auto.
Qed.

(** X7: with a truthy ["stream"] in the body, the handler on a configured
    server returns its [StreamingResponse] whatever the key and the
    upstream are: it signs nothing, sends nothing and reads no clock, and
    only the trace has grown.  The generator it hands over ends the way
    [request_stream] does, so that a failure of the upstream comes out of
    it unchanged, after the response has begun, and is never turned into
    the handler's 500. *)
Theorem streaming_chat_defers_upstream (req : Request) (w : World)
    (client : GonkaClient) (body_json stream : json) :
  gonka_client w = Some client ->
  json_loads_bytes (body req) = inr body_json ->
  json_get body_json "stream" (JBool false) = inr stream ->
  truthy stream = true ->
  (exists events,
     chat_completions req w
     = (inr (StreamingResponse (generate client body_json) "text/event-stream"
               sse_headers),
        add_events w events)
     /\ sent_requests events = [])
  /\ forall w1,
       fst (generate client body_json w1)
       = fst (request_stream client "POST" "/chat/completions" (Some body_json) w1)
       /\ sent_requests (trace (snd (generate client body_json w1)))
          = sent_requests
              (trace (snd (request_stream client "POST" "/chat/completions"
                             (Some body_json) w1)))
       /\ yielded_chunks (trace (snd (generate client body_json w1)))
          = yielded_chunks
              (trace (snd (request_stream client "POST" "/chat/completions"
                             (Some body_json) w1))).
Proof.
  intros Hclient Hbody Hstream Htruthy. split.
  - destruct w as [tn pc wr pr up tr st gc am]. cbn [gonka_client] in Hclient.
    subst gc. eexists. split.
    + run_main. world_simpl. rewrite Hbody. run_main. world_simpl.
      rewrite Hstream. run_main. rewrite Htruthy. run_main. world_simpl.
      unfold add_events. cbn [trace time_ns perf_counter_ns wall_reads perf_reads
        upstream settings gonka_client available_models].
      rewrite <- !app_assoc. reflexivity.
    + reflexivity.
  - intros w1. unfold generate, try_except, except_Exception, bind, raise, log, emit.
    destruct (request_stream client "POST" "/chat/completions" (Some body_json) w1)
      as [[e|[]] w2]; cbn [fst snd]; [|repeat split].
    destruct (is_Exception e); cbn [fst snd]; repeat split;
      unfold add_events; cbn [trace];
      now rewrite ?sent_requests_app, ?yielded_chunks_app, ?app_nil_r.
Qed.

(** X8: a streamed chat completion end to end.  On a configured server
    whose upstream answers the signed [POST <endpoint>/chat/completions]
    with a status below 400, the handler returns a [text/event-stream]
    response without having sent anything, and running the generator of
    that response then sends exactly one request and hands on the chunks
    of the upstream body, unchanged and in order. *)
Theorem streamed_chat_relays_upstream (req : Request) (w : World)
    (client : GonkaClient) (body_json stream : json) (signature : string)
    (r : HttpResponse) :
  gonka_client w = Some client ->
  json_loads_bytes (body req) = inr body_json ->
  json_get body_json "stream" (JBool false) = inr stream ->
  truthy stream = true ->
  let payload_bytes := str_encode (json_dumps body_json) in
  let timestamp_ns :=
    _wall_base client + (perf_counter_ns w (perf_reads w) - _perf_base client) in
  _sign_payload client payload_bytes timestamp_ns (provider_address client)
  = inr signature ->
  upstream w (mkHttpRequest "POST" (endpoint client +:+ "/chat/completions")
                (signed_headers signature (address client) timestamp_ns)
                payload_bytes)
  = Responded r ->
  status_code r < 400 ->
  exists generator w1,
    chat_completions req w
    = (inr (StreamingResponse generator "text/event-stream" sse_headers), w1)
    /\ sent_requests (trace w1) = sent_requests (trace w)
    /\ fst (generator w1)
       = match body_failure r with
         | None => inr tt
         | Some detail => inl (TransportError detail)
         end
    /\ yielded_chunks (trace (snd (generator w1)))
       = yielded_chunks (trace w) ++ body_chunks r
    /\ length (sent_requests (trace (snd (generator w1))))
       = S (length (sent_requests (trace w))).
Proof.
  destruct w as [tn pc wr pr up tr st gc am]. cbv zeta. world_simpl.
  intros Hclient Hbody Hstream Htruthy Hsign Hup Hstatus. subst gc.
  destruct r as [status chunks failure]. world_simpl.
  assert (Hge : (status >=? 400) = false) by (rewrite Z.geb_leb; apply Z.leb_gt; lia).
  do 2 eexists. split; [|split].
  - run_main. world_simpl. rewrite Hbody. run_main. world_simpl.
    rewrite Hstream. run_main. rewrite Htruthy. run_main. world_simpl.
    reflexivity.
  - world_simpl. rewrite !sent_requests_app. cbn [sent_requests]. now rewrite !app_nil_r.
  - unfold generate.
    repeat (run_client; world_simpl;
            rewrite ?Hsign, ?Hup, ?Hge, ?yield_chunks_run; try case_split).
    all: repeat split;
      rewrite ?yielded_chunks_app, ?sent_requests_app, ?yielded_chunks_yields,
        ?sent_requests_yields;
      cbn [yielded_chunks sent_requests app]; rewrite ?app_nil_r, ?length_app;
      cbn [length]; first [reflexivity | lia].
Qed.


(** X9: a buffered chat completion end to end.  On a configured server,
    for a JSON object body whose ["stream"] is absent or falsy, the
    handler answers with the parsed body of a 2xx upstream response, as
    it came; every other way the upstream call can end, a key that cannot
    sign, an unreachable upstream, a broken body, a status outside 2xx, a
    2xx body that [json.loads] cannot decode or cannot parse, is answered
    with a 500 whose detail is
    ["Internal server error: "] and the text of the error: the upstream's
    own status is never passed on. *)
Theorem buffered_chat_outcome (req : Request) (w : World)
    (client : GonkaClient) (body_json stream : json) :
  gonka_client w = Some client ->
  json_loads_bytes (body req) = inr body_json ->
  json_get body_json "stream" (JBool false) = inr stream ->
  truthy stream = false ->
  let payload_bytes := str_encode (json_dumps body_json) in
  let timestamp_ns :=
    _wall_base client + (perf_counter_ns w (perf_reads w) - _perf_base client) in
  let flattened e := inl (HTTPException 500 ("Internal server error: " +:+ exn_str e)) in
  fst (chat_completions req w)
  = match _sign_payload client payload_bytes timestamp_ns (provider_address client) with
    | inl e => flattened e
    | inr signature =>
      match upstream w (mkHttpRequest "POST" (endpoint client +:+ "/chat/completions")
                          (signed_headers signature (address client) timestamp_ns)
                          payload_bytes) with
      | ConnectFailed detail => flattened (TransportError detail)
      | Responded r =>
        match body_failure r with
        | Some detail => flattened (TransportError detail)
        | None =>
          let content := concat (body_chunks r) in
          if (200 <=? status_code r) && (status_code r <=? 299) then
            match json_text content with
            | None => flattened UnicodeDecodeError
            | Some text =>
              match json_parse text with
              | Some v => inr (JSONResponse v)
              | None => flattened JSONDecodeError
              end
            end
          else flattened (HTTPStatusError (status_code r) (Some content))
        end
      end
    end.
Proof.
  destruct w as [tn pc wr pr up tr st gc am]. cbv zeta. world_simpl.
  intros Hclient Hbody Hstream Htruthy. subst gc.
  run_main. world_simpl. rewrite Hbody. run_main. world_simpl.
  rewrite Hstream. run_main. rewrite Htruthy. run_main. world_simpl.
  run_client. world_simpl.
  destruct (_sign_payload client _ _ (provider_address client))
    as [e|signature] eqn:Hsign.
  - pose proof (sign_payload_raises_Exception _ _ _ _ _ Hsign) as Hexn.
    run_client. destruct e; try discriminate Hexn; reflexivity.
  - match goal with
    | |- context [match ?x with ConnectFailed _ => _ | Responded _ => _ end] =>
      destruct x as [detail|[status chunks failure]] eqn:Hup
    end; world_simpl.
    all: try destruct failure as [detail|].
    all: try destruct ((200 <=? status) && (status <=? 299)) eqn:Hstatus.
    all: try destruct (json_text (concat chunks)) as [text|] eqn:Htext.
    all: try destruct (json_parse text) eqn:Hparse.
    all: repeat (run_client; world_simpl;
                 rewrite ?Hup, ?Hstatus, ?Htext, ?Hparse; try case_split);
      reflexivity.
Qed.

(** X10: a body that is not a JSON object never reaches the upstream.  On
    a configured server the handler answers a body that [json.loads]
    cannot decode or cannot parse with a 400 whose detail is
    ["Invalid JSON: "] and the text of that error, and fails with an
    [AttributeError], which no [except] clause of the handler catches, on
    a body that is JSON but not an object; either way nothing is signed
    or sent and no clock is read. *)
Theorem bad_body_sends_nothing (req : Request) (w : World) (client : GonkaClient) :
  gonka_client w = Some client ->
  (forall fields, json_loads_bytes (body req) <> inr (JObj fields)) ->
  exists events,
    chat_completions req w
    = (inl (match json_loads_bytes (body req) with
            | inl e => HTTPException 400 ("Invalid JSON: " +:+ exn_str e)
            | inr _ => AttributeError
            end),
       add_events w events)
    /\ sent_requests events = [].
Proof.
  destruct w as [tn pc wr pr up tr st gc am]. cbn [gonka_client].
  intros -> Hbody.
  destruct (json_loads_bytes (body req)) as [e|v] eqn:Hparse.
  - destruct (json_loads_bytes_error _ _ Hparse) as [->| ->].
    all: eexists; split; [|shelve].
    all: run_main; world_simpl; rewrite Hparse; run_main; world_simpl;
      cbn [is_Exception]; run_main; world_simpl; unfold add_events;
      cbn [trace time_ns perf_counter_ns wall_reads perf_reads
        upstream settings gonka_client available_models];
      rewrite <- ?app_assoc; reflexivity.
    Unshelve. all: reflexivity.
  - destruct v; try (now destruct (Hbody _ eq_refl)).
    all: eexists; split; [|shelve].
    all: run_main; world_simpl; rewrite Hparse; run_main; world_simpl;
      cbn [json_get]; run_main; unfold add_events;
      cbn [trace time_ns perf_counter_ns wall_reads perf_reads
        upstream settings gonka_client available_models];
      rewrite <- ?app_assoc; reflexivity.
    Unshelve. all: reflexivity.
Qed.

(** X11: the ways [POST /v1/chat/completions] can fail.  Whatever the
    request, the settings and the upstream, the endpoint either returns a
    response or raises an [HTTPException] of status 400, 401 or 500, or,
    for a body that is JSON but not an object, the [AttributeError] of
    [body.get]; no error of the key, the transport or the upstream gets
    out of it in any other form. *)
Theorem chat_endpoint_failures (req : Request) (credentials : option string)
    (w : World) (e : exn) :
  fst (post_chat_completions req credentials w) = inl e ->
  (exists status detail,
     e = HTTPException status detail
     /\ (status = 400 \/ status = 401 \/ status = 500))
  \/ (e = AttributeError
      /\ exists v, json_loads_bytes (body req) = inr v
                   /\ forall fields, v <> JObj fields).
Proof.
  unfold post_chat_completions, bind at 1.
  destruct (verify_api_key_world req credentials w) as [Hw Hfail].
  destruct (verify_api_key req credentials w) as [[e'|ok] w1];
    cbn [fst snd] in Hw, Hfail |- *.
  { intros [= <-]. destruct (Hfail e' eq_refl) as (status & detail & -> & [->| ->]);
      left; eauto 10. }
  subst w1. clear Hfail.
  destruct w as [tn pc wr pr up tr st gc am].
  run_main. world_simpl.
  repeat match goal with
         | |- context [request ?c ?m ?p ?pl ?W] =>
           let H := fresh "Hexn" in
           pose proof (request_raises_Exception c m p pl W) as H;
           destruct (request c m p pl W) as [[?|?] ?]; cbn [fst] in H
         | |- context [match json_loads_bytes ?x with _ => _ end] =>
           let H := fresh "Hbody" in
           destruct (json_loads_bytes x) as [?|[]] eqn:H;
           [destruct (json_loads_bytes_error _ _ H) as [->| ->]|..]
         | |- context [match assoc_lookup ?k ?f with _ => _ end] =>
           destruct (assoc_lookup k f)
         | |- context [match ?f with Some _ => _ | None => _ end] =>
           is_var f; destruct f
         | |- context [if ?b then _ else _] => destruct b eqn:?
         | H : forall e, inl ?x = inl e -> _ |- _ => specialize (H x eq_refl)
         | _ => progress (run_main; world_simpl; cbn [json_get is_Exception])
         end.
  all: try (intros [= <-]).
  all: try (left; do 2 eexists; split; [reflexivity|tauto]).
  all: try (right; split; [reflexivity|]; eexists; split; [reflexivity|];
            intros; discriminate).
  all: cbn [is_Exception] in *; congruence.
Qed.


(* ================================================================== *)
(** * The client of the process                                       *)
(* ================================================================== *)

Lemma str_rstrip_decompose (c : ascii) (s : string) :
  exists k, s = str_rstrip c s +:+ string_of_list_ascii (repeat c k).
Proof.
  induction s as [|a t [k IH]].
  - now exists O.
  - cbn [str_rstrip]. destruct (str_rstrip c t) as [|b t'] eqn:Hstrip.
    + destruct (Ascii.eqb_spec a c) as [->|_].
      * exists (S k). cbn [repeat string_of_list_ascii]. now rewrite IH at 1.
      * exists k. now rewrite IH at 1.
    + exists k. now rewrite IH at 1.
Qed.

Lemma str_rstrip_no_trailing (c : ascii) (s t : string) :
  str_rstrip c s <> t +:+ String c EmptyString.
Proof.
  revert t. induction s as [|a s IH]; intros t.
  - destruct t; intros H; inversion H.
  - cbn [str_rstrip]. destruct (str_rstrip c s) as [|b s'] eqn:Hstrip.
    + destruct (Ascii.eqb_spec a c) as [->|Hne].
      * destruct t; intros H; inversion H.
      * destruct t as [|x t]; intros H; inversion H; [congruence|].
        destruct t; match goal with H' : EmptyString = _ |- _ => inversion H' end.
    + destruct t as [|x t]; intros H.
      * inversion H.
      * inversion H as [[Ha Ht]]. exact (IH t Ht).
Qed.

(** X12: the first use of the client creates it.  On a server with all
    four upstream settings and no client yet, [get_gonka_client] returns a
    client made of those settings, reads each of the two clocks once for
    its time bases, sends nothing, and stores the client.  The endpoint it
    keeps is the configured one without its trailing slashes, however
    many there are, so that it never ends in a slash. *)
Theorem first_use_creates_client (w : World) :
  gonka_client w = None ->
  configuration_complete (settings w) = true ->
  exists client w1,
    get_gonka_client w = (inr client, w1)
    /\ gonka_client w1 = Some client
    /\ private_key client = gonka_private_key (settings w)
    /\ address client = gonka_address (settings w)
    /\ provider_address client = gonka_provider_address (settings w)
    /\ (exists k, gonka_endpoint (settings w)
                  = endpoint client +:+ string_of_list_ascii (repeat "/"%char k))
    /\ (forall t, endpoint client <> t +:+ "/")
    /\ _wall_base client = time_ns w (wall_reads w)
    /\ _perf_base client = perf_counter_ns w (perf_reads w)
    /\ wall_reads w1 = S (wall_reads w)
    /\ perf_reads w1 = S (perf_reads w)
    /\ trace w1 = trace w
    /\ settings w1 = settings w.
Proof.
  destruct w as [tn pc wr pr up tr st gc am]. cbn [gonka_client settings].
  intros -> Hcfg. do 2 eexists. split.
  - run_main. world_simpl. rewrite Hcfg. run_main. world_simpl. reflexivity.
  - cbn. repeat split; try reflexivity.
    + apply str_rstrip_decompose.
    + intros t. apply str_rstrip_no_trailing.
Qed.

(** X13: the client is created once.  Once the process holds a client,
    the startup hook, the chat endpoint and the generators of streamed
    responses all leave it in place, and both [_create_gonka_client] and
    [get_gonka_client] return that same client without reading a clock or
    touching the state: every request of the process is signed with the
    key, and stamped from the time bases, of the first client. *)
Theorem client_is_never_replaced (w : World) (client : GonkaClient) :
  gonka_client w = Some client ->
  _create_gonka_client w = (inr (Some client), w)
  /\ get_gonka_client w = (inr client, w)
  /\ gonka_client (snd (lifespan w)) = Some client
  /\ (forall req credentials,
        gonka_client (snd (post_chat_completions req credentials w)) = Some client)
  /\ (forall other body_json,
        gonka_client (snd (generate other body_json w)) = Some client).
Proof.
  intros Hclient. split; [|split; [|split; [|split]]].
  - destruct w as [tn pc wr pr up tr st gc am]. cbn [gonka_client] in Hclient.
    subst gc. reflexivity.
  - destruct w as [tn pc wr pr up tr st gc am]. cbn [gonka_client] in Hclient.
    subst gc. reflexivity.
  - destruct w as [tn pc wr pr up tr st gc am]. cbn [gonka_client] in Hclient.
    subst gc.
    run_main_with request_keeps_globals get_models_keeps_globals;
      unfold keeps_globals in *; world_simpl; cbn [gonka_client] in *;
      intuition congruence.
  - intros req credentials.
    destruct w as [tn pc wr pr up tr st gc am]. cbn [gonka_client] in Hclient.
    subst gc.
    run_main_with request_keeps_globals get_models_keeps_globals;
      unfold keeps_globals in *; world_simpl; cbn [gonka_client] in *;
      intuition congruence.
  - intros other body_json.
    destruct (generate_keeps_globals other body_json w) as [_ Hkeep].
    now rewrite Hkeep.
Qed.


(* ================================================================== *)
(** * The model list                                                  *)
(* ================================================================== *)

Lemma get_models_run (self : GonkaClient) (w : World) :
  exists models events,
    get_models self w = (inr models, add_events (tick_perf w) events)
    /\ (exists n, py_len models = inr n)
    /\ (sent_requests events = []
        \/ exists req, sent_requests events = [req] /\ models_request self req).
Proof.
  destruct w as [tn pc wr pr up tr st gc am].
  unfold get_models, models_request. run_client. world_simpl.
  destruct (_sign_payload self _ _ (provider_address self)) as [e|signature] eqn:Hsign.
  - pose proof (sign_payload_raises_Exception _ _ _ _ _ Hsign) as Hexn.
    run_client. destruct e; try discriminate Hexn; run_client; world_simpl.
    all: do 2 eexists; (split; [|split]);
      [unfold add_events, tick_perf;
       cbn [trace time_ns perf_counter_ns wall_reads perf_reads
              upstream settings gonka_client available_models];
       rewrite <- ?app_assoc; reflexivity
      |cbn; eauto
      |left; reflexivity].
  - repeat match goal with
           | |- context [match json_parse ?x with _ => _ end] =>
             destruct (json_parse x) as [[]|]
           | |- context [match json_text ?x with _ => _ end] =>
             destruct (json_text x)
           | |- context [match assoc_lookup ?k ?f with _ => _ end] =>
             destruct (assoc_lookup k f) as [[]|]
           | |- context [match ?x with ConnectFailed _ => _ | Responded _ => _ end] =>
             let o := fresh "response" in destruct x as [?|o]; [|destruct o]
           | |- context [match ?f with Some _ => _ | None => _ end] =>
             is_var f; destruct f
           | |- context [if ?b then _ else _] => destruct b eqn:?
           | _ => progress (run_client; world_simpl;
                            cbn [json_get py_len except_Exception is_Exception])
           end.
    all: do 2 eexists; (split; [|split]);
      [unfold add_events, tick_perf;
       cbn [trace time_ns perf_counter_ns wall_reads perf_reads
              upstream settings gonka_client available_models];
       rewrite <- ?app_assoc; reflexivity
      |cbn; eauto
      |right; eexists; split; [reflexivity|cbn; auto]].
Qed.

(** X14: startup always completes and leaves a usable model cache.  The
    startup half of [lifespan] never raises.  It sends at most one
    request, the [GET <endpoint>/models] of [get_models] with the empty
    object as its body, and none at all on a server that lacks an
    upstream setting, where the cache is left empty.  Whatever the
    upstream answered, the cache it leaves is a value with a length, so
    the [for] loop of [list_models] can always run over it. *)
Theorem lifespan_always_completes (w : World) :
  let w1 := snd (lifespan w) in
  fst (lifespan w) = inr tt
  /\ (exists n, py_len (available_models w1) = inr n)
  /\ (exists models, py_iter (available_models w1) = inr models)
  /\ (exists requests,
        sent_requests (trace w1) = sent_requests (trace w) ++ requests
        /\ (length requests <= 1)%nat
        /\ forall req, In req requests ->
             exists client, gonka_client w1 = Some client /\ models_request client req)
  /\ (gonka_client w = None -> configuration_complete (settings w) = false ->
      available_models w1 = JArr [] /\ sent_requests (trace w1) = sent_requests (trace w)).
Proof.
  assert (Hiter : forall v n, py_len v = inr n -> exists models, py_iter v = inr models).
  { intros v n0 H. destruct v; try discriminate H; cbn; eauto. }
  destruct w as [tn pc wr pr up tr st gc am]. cbv zeta.
  run_main. world_simpl.
  destruct gc as [client|].
  - run_main. world_simpl.
    match goal with
    | |- context [get_models ?c ?W] =>
      destruct (get_models_run c W) as (models & events & -> & [len Hlen] & Hsent)
    end.
    unfold add_events. world_simpl. run_main. world_simpl. rewrite Hlen.
    run_main. world_simpl.
    split; [reflexivity|]. split; [eauto|]. split; [eauto|]. split.
    + destruct Hsent as [Hsent|(req & Hsent & Hreq)].
      * exists []. rewrite !sent_requests_app, Hsent. cbn.
        rewrite !app_nil_r. repeat split; [lia|]. intros ? [].
      * exists [req]. rewrite !sent_requests_app, Hsent. cbn [sent_requests].
        rewrite !app_nil_r. repeat split; [cbn; lia|].
        intros ? [<-|[]]. eauto.
    + discriminate.
  - destruct (configuration_complete st) eqn:Hcfg; cbn [negb].
    + run_main. world_simpl.
      match goal with
      | |- context [get_models ?c ?W] =>
        destruct (get_models_run c W) as (models & events & -> & [len Hlen] & Hsent)
      end.
      unfold add_events. world_simpl. run_main. world_simpl. rewrite Hlen.
      run_main. world_simpl.
      split; [reflexivity|]. split; [eauto|]. split; [eauto|]. split.
      * destruct Hsent as [Hsent|(req & Hsent & Hreq)].
        -- exists []. rewrite !sent_requests_app, Hsent. cbn.
           rewrite !app_nil_r. repeat split; [lia|]. intros ? [].
        -- exists [req]. rewrite !sent_requests_app, Hsent. cbn [sent_requests].
           rewrite !app_nil_r. repeat split; [cbn; lia|].
           intros ? [<-|[]]. eauto.
      * discriminate.
    + run_main. world_simpl.
      split; [reflexivity|]. split; [cbn; eauto|]. split; [cbn; eauto|]. split.
      * exists []. rewrite !sent_requests_app. cbn. rewrite !app_nil_r.
        repeat split; [lia|]. intros ? [].
      * intros _ _. split; [reflexivity|].
        rewrite !sent_requests_app. cbn. now rewrite !app_nil_r.
Qed.


Lemma models_data_objects (objects : list (list (string * json))) :
  models_data (map JObj objects)
  = inr (map (fun fields =>
                model_entry (match assoc_lookup "id" fields with
                             | Some model_id => model_id
                             | None => JStr "unknown"
                             end))
           objects).
Proof.
  induction objects as [|fields rest IH]; [reflexivity|].
  cbn [map models_data json_get]. rewrite IH.
  now destruct (assoc_lookup "id" fields).
Qed.

Lemma models_data_not_object (items : list json) (item : json) :
  In item items -> (forall fields, item <> JObj fields) ->
  models_data items = inl AttributeError.
Proof.
  induction items as [|model rest IH]; intros Hin Hitem; [destruct Hin|].
  cbn [models_data].
  destruct (json_get model "id" (JStr "unknown")) as [e|model_id] eqn:Hget.
  - destruct model; cbn in Hget; try (now inversion Hget).
    now destruct (assoc_lookup "id" fields).
  - destruct Hin as [->|Hin].
    + destruct item; cbn in Hget; try discriminate Hget.
      now destruct (Hitem fields).
    + cbn. now rewrite (IH Hin Hitem).
Qed.

(** X15: what [GET /v1/models] lists.  When the cache is a list of
    objects, [list_models] answers with one entry for each of them, in
    the order of the cache, carrying the object's ["id"], or ["unknown"]
    when it has none, together with the fixed [object], [created] and
    [owned_by] fields; for an empty cache it answers with the single
    placeholder ["gonka-model"], so that the list is never empty.  When
    some item of the cache is not an object, it fails with the
    [AttributeError] of [model.get].  It never changes the state. *)
Theorem list_models_outcome (w : World) (items : list json) :
  available_models w = JArr items ->
  (forall objects, items = map JObj objects ->
     list_models w
     = (inr (JObj [("object", JStr "list");
                   ("data",
                    JArr (match objects with
                          | [] => [model_entry (JStr "gonka-model")]
                          | _ =>
                            map (fun fields =>
                                   model_entry
                                     (match assoc_lookup "id" fields with
                                      | Some model_id => model_id
                                      | None => JStr "unknown"
                                      end))
                              objects
                          end))]),
        w))
  /\ ((exists item, In item items /\ forall fields, item <> JObj fields) ->
      list_models w = (inl AttributeError, w)).
Proof.
  intros Hcache. split.
  - intros objects ->. unfold list_models, bind, get_world, lift, ret.
    rewrite Hcache. cbn [py_iter]. rewrite models_data_objects.
    now destruct objects.
  - intros (item & Hin & Hitem). unfold list_models, bind, get_world, lift, ret.
    rewrite Hcache. cbn [py_iter].
    now rewrite (models_data_not_object items item Hin Hitem).
Qed.


(* ================================================================== *)
(** * The keys that sign                                              *)
(* ================================================================== *)

Lemma hex_digit_value_range (c : ascii) (d : Z) :
  hex_digit_value c = Some d -> 0 <= d < 16.
Proof.
  unfold hex_digit_value.
  repeat match goal with
         | |- context [if ?b then _ else _] => destruct b eqn:?
         end; intros [= <-]; lia.
Qed.

Lemma fromhex_hex_value (n : nat) :
  forall (s : string) (acc : Z),
    String.length s = (2 * n)%nat ->
    str_forallb is_hex_digit s = true ->
    exists bs,
      bytes_fromhex s = inr bs
      /\ length bs = n
      /\ fold_left (fun acc x => acc * 256 + byte_to_Z x) bs acc = hex_value_from acc s.
Proof.
  induction n as [|n IH]; intros s acc Hlen Hhex.
  - destruct s; [|discriminate]. now exists [].
  - destruct s as [|c [|c' rest]]; try (cbn [String.length] in Hlen; lia).
    cbn [str_forallb] in Hhex.
    apply andb_prop in Hhex as [Hc Hhex]. apply andb_prop in Hhex as [Hc' Hrest].
    pose proof (hex_digit_not_space c Hc) as Hspace.
    unfold is_hex_digit in Hc, Hc'.
    destruct (hex_digit_value c) as [top|] eqn:Htop; [|discriminate].
    destruct (hex_digit_value c') as [bot|] eqn:Hbot; [|discriminate].
    pose proof (hex_digit_value_range _ _ Htop).
    pose proof (hex_digit_value_range _ _ Hbot).
    destruct (IH rest (16 * (16 * acc + top) + bot)) as (bs & Hbs & Hlenbs & Hval).
    { cbn [String.length] in Hlen. lia. }
    { exact Hrest. }
    exists (byte_of_Z (16 * top + bot) :: bs).
    cbn [bytes_fromhex]. rewrite Hspace, Htop, Hbot, Hbs.
    split; [reflexivity|]. split; [cbn; lia|].
    cbn [fold_left hex_value_from]. rewrite Htop, Hbot.
    rewrite byte_to_of_Z by lia. rewrite <- Hval. f_equal. lia.
Qed.

Lemma strip_0x_hex (hex : string) :
  str_forallb is_hex_digit hex = true -> strip_0x hex = hex.
Proof.
  unfold strip_0x, str_startswith. intros Hhex.
  destruct hex as [|c [|c' rest]]; cbn [String.prefix]; try reflexivity.
  - now destruct (ascii_dec "0" c).
  - destruct (ascii_dec "0" c) as [_|_]; [|reflexivity].
    destruct (ascii_dec "x" c') as [<-|_]; [|reflexivity].
    cbn [str_forallb] in Hhex.
    apply andb_prop in Hhex as [_ Hhex]. apply andb_prop in Hhex as [Hc' _].
    discriminate Hc'.
Qed.

Lemma strip_0x_prefixed (hex : string) : strip_0x ("0x" +:+ hex) = hex.
Proof.
  unfold strip_0x. rewrite str_startswith_app.
  exact (str_drop_app "0x" hex).
Qed.

Lemma length_b64encode (bs : bytes) :
  length (b64encode bs) = (4 * ((length bs + 2) / 3))%nat.
Proof.
  induction bs as [|a|a b|a b c l IH] using list_ind3; try reflexivity.
  cbn [b64encode length]. rewrite IH.
  replace (S (S (S (length l))) + 2)%nat with (length l + 2 + 1 * 3)%nat by lia.
  rewrite Nat.div_add by discriminate. lia.
Qed.

Lemma length_string_of_list_byte (bs : bytes) :
  String.length (string_of_list_byte bs) = length bs.
Proof.
  induction bs as [|b bs IH]; [reflexivity|].
  exact (f_equal S IH).
Qed.

(** X16: the keys that sign.  A key text of exactly 64 hexadecimal
    digits, in either case, whose value lies in [1, order), is accepted
    with or without a ["0x"] in front of it: the signing key is the
    number the digits write, every call of [_sign_payload] returns a
    signature, and that signature is a text of 88 characters. *)
Theorem well_formed_key_signs (hex : string) (self : GonkaClient)
    (P : bytes) (T : Z) (A : string) :
  String.length hex = 64%nat ->
  str_forallb is_hex_digit hex = true ->
  1 <= hex_value hex < SECP256k1_order ->
  private_key self = hex \/ private_key self = "0x" +:+ hex ->
  private_key_scalar (private_key self) = inr (hex_value hex)
  /\ exists signature,
       _sign_payload self P T A = inr signature
       /\ String.length signature = 88%nat.
Proof.
  intros Hlen Hhex Hrange Hkey.
  assert (Hstrip : strip_0x (private_key self) = hex).
  { destruct Hkey as [->| ->]; [now apply strip_0x_hex | apply strip_0x_prefixed]. }
  assert (Hscalar : private_key_scalar (private_key self) = inr (hex_value hex)).
  { unfold private_key_scalar. rewrite Hstrip.
    destruct (fromhex_hex_value 32 hex 0 Hlen Hhex) as (bs & -> & Hbs & Hval).
    cbn [rbind]. unfold SigningKey_from_string. rewrite Hbs. cbn [Nat.eqb negb].
    unfold int_from_bytes. rewrite Hval. fold (hex_value hex).
    destruct Hrange as [Hlo Hhi].
    apply Z.leb_le in Hlo. apply Z.ltb_lt in Hhi. now rewrite Hlo, Hhi. }
  split; [exact Hscalar|].
  eexists. split; [exact (sign_payload_eq self P T A _ Hscalar)|].
  pose proof (private_key_scalar_range _ _ Hscalar) as Hsk.
  destruct (sign_format (hex_value hex) (signing_message P T A) hashlib_sha256 Hsk)
    as [Hsig _].
  rewrite length_string_of_list_byte, length_b64encode, length_app,
    length_firstn, length_be_bytes, Hsig.
  reflexivity.
Qed.


(** X17: nothing but the monotonic clock keeps the timestamps of two
    requests apart.  With a key that signs, two calls of
    [_prepare_request] in a row for the same payload both succeed with
    the same payload bytes; their [X-Timestamp] headers are equal exactly
    when the two readings of the monotonic clock are, and in that case
    the whole header sets, signature included, are the same. *)
Theorem successive_requests_timestamps (self : GonkaClient) (payload : option json)
    (w : World) (sk : SigningKey) :
  private_key_scalar (private_key self) = inr sk ->
  let first := _prepare_request self payload w in
  let second := _prepare_request self payload (snd first) in
  let stalled :=
    perf_counter_ns w (S (perf_reads w)) = perf_counter_ns w (perf_reads w) in
  exists payload_bytes headers1 headers2,
    fst first = inr (payload_bytes, headers1)
    /\ fst second = inr (payload_bytes, headers2)
    /\ (headers1 !! "X-Timestamp" = headers2 !! "X-Timestamp" <-> stalled)
    /\ (stalled -> headers1 = headers2).
Proof.
  destruct w as [tn pc wr pr up tr st gc am]. cbv zeta. world_simpl.
  intros Hkey.
  unfold _prepare_request, _hybrid_timestamp_ns, bind, ret, lift,
    time_perf_counter_ns, get_world.
  world_simpl.
  rewrite (sign_payload_eq self _ (_wall_base self + (pc pr - _perf_base self))
             (provider_address self) sk Hkey).
  cbv zeta. cbn [fst snd]. world_simpl.
  rewrite (sign_payload_eq self _ (_wall_base self + (pc (S pr) - _perf_base self))
             (provider_address self) sk Hkey).
  cbv zeta. cbn [fst snd].
  do 3 eexists. split; [reflexivity|]. split; [reflexivity|]. split.
  - repeat match goal with
           | |- context [signed_headers ?s ?a ?t !! "X-Timestamp"] =>
             destruct (signed_headers_lookup s a t) as [_ ->]
           end.
    split.
    + intros [= H]. apply py_str_inj in H. lia.
    + intros ->. reflexivity.
  - intros ->. reflexivity.
Qed.



End Proxy.

(* ================================================================== *)
(** * The theorems on a running instance                              *)
(* ================================================================== *)

Lemma stub_sign_format : signature_format stub_sign.
Proof.
  intros sk data h Hsk. unfold stub_sign.
  pose proof order_below_2_256 as Hord.
  split.
  - rewrite length_app, !length_be_bytes. reflexivity.
  - pose proof (drop_app_length (be_bytes 32 (1 + sk mod 1000))
                  (be_bytes 32 (SECP256k1_order - 1 - Z.of_nat (length data) mod 1000)))
      as Hskip.
    rewrite length_be_bytes in Hskip. rewrite Hskip.
    pose proof (Z.mod_pos_bound (Z.of_nat (length data)) 1000 ltac:(lia)) as Hmod.
    assert (1000 < SECP256k1_order) by (unfold SECP256k1_order; lia).
    rewrite int_from_be_bytes; lia.
Qed.

Lemma test_key_scalar : private_key_scalar (private_key test_client) = inr 42.
Proof.
  vm_compute. reflexivity.
Qed.

Example sign_payload_on_test_client :
  _sign_payload stub_sign test_client (str_encode "{}") 1700000000000000123
    "gonka1provider"
  = inr "AAAAAAAAAAAAAAAAAAAAAAAAAAAAAAAAAAAAAAAAACsAAAAAAAAAAAAAAAAAAAAAAAAAAAAAAAAAAAAAAAAAJA==".
Proof. vm_compute. reflexivity. Qed.

Example get_models_with_upstream_down :
  fst (get_models stub_sign stub_dumps stub_dumps stub_parse stub_text test_client
         (boot_world complete_settings failing_upstream))
  = inr (JArr []).
Proof. vm_compute. reflexivity. Qed.

Example stream_passes_chunks_through :
  let outcome :=
    request_stream stub_sign stub_dumps stub_dumps stub_parse test_client
      "POST" "/chat/completions" None (boot_world complete_settings streaming_upstream) in
  fst outcome = inr tt
  /\ yielded_chunks (trace (snd outcome)) = [str_encode "data: a"; str_encode "data: b"].
Proof. vm_compute. split; reflexivity. Qed.

Example malformed_json_on_configured_server :
  response_status
    (fst (post_chat_completions stub_sign stub_dumps stub_dumps stub_parse stub_text
            (mkRequest (Some "Bearer sk-test") (str_encode "{not json")) (Some "sk-test")
            (boot_world complete_settings failing_upstream)))
  = 400.
Proof. vm_compute. reflexivity. Qed.

Example upstream_failure_is_flattened_to_500 :
  response_status
    (fst (post_chat_completions stub_sign stub_dumps stub_dumps stub_parse stub_text
            (mkRequest (Some "Bearer sk-test") (str_encode "{}")) (Some "sk-test")
            (boot_world complete_settings failing_upstream)))
  = 500.
Proof. vm_compute. reflexivity. Qed.

Example wrong_api_key_is_401 :
  response_status
    (fst (post_chat_completions stub_sign stub_dumps stub_dumps stub_parse stub_text
            (mkRequest (Some "sk-wrong") (str_encode "{}")) None
            (boot_world complete_settings failing_upstream)))
  = 401.
Proof. vm_compute. reflexivity. Qed.

Example unconfigured_detail_in_full :
  fst (chat_completions stub_sign stub_dumps stub_dumps stub_parse stub_text
         (mkRequest (Some "Bearer sk-test") (str_encode "{not json"))
         (boot_world incomplete_settings failing_upstream))
  = inl (HTTPException 500
           "Gonka configuration incomplete. Missing: GONKA_PROVIDER_ADDRESS (provider address in bech32 format, get it from the Gonka provider). GONKA_PROVIDER_ADDRESS is the Gonka provider address (bech32 format), which can be obtained from the provider or in Gonka documentation.").
Proof. vm_compute. reflexivity. Qed.

Example undecodable_body_is_a_unicode_error :
  fst (request stub_sign stub_dumps stub_dumps stub_parse stub_text test_client
         "POST" "/chat/completions" None (serving_world garbled_upstream))
  = inl UnicodeDecodeError.
Proof. vm_compute. reflexivity. Qed.



Lemma sign_payload_canonical_message_witness :
  private_key_scalar (private_key test_client) = inr 42
  /\ exists r s : bytes,
       r = firstn 32 (stub_sign 42
                        (str_encode "{}" ++ str_encode (py_str 1700000000000000123)
                         ++ str_encode "gonka1provider") hashlib_sha256)
       /\ length r = 32%nat
       /\ length s = 32%nat
       /\ int_from_bytes s
          = low_s (int_from_bytes
                     (skipn 32 (stub_sign 42
                                  (str_encode "{}" ++ str_encode (py_str 1700000000000000123)
                                   ++ str_encode "gonka1provider") hashlib_sha256)))
       /\ _sign_payload stub_sign test_client (str_encode "{}") 1700000000000000123
            "gonka1provider"
          = inr (string_of_list_byte (b64encode (r ++ s)))
       /\ (0 <= 1700000000000000123 ->
           canonical_decimal (py_str 1700000000000000123)
           /\ decimal_value (py_str 1700000000000000123) = Some 1700000000000000123).
Proof.
  split.
  - vm_compute. reflexivity.
  - apply (sign_payload_canonical_message stub_sign stub_sign_format test_client
             (str_encode "{}") 1700000000000000123 "gonka1provider" 42).
    vm_compute. reflexivity.
Defined.

Lemma signature_is_low_s_witness :
  private_key_scalar (private_key test_client) = inr 42
  /\ exists (signature : string) (raw : bytes),
       _sign_payload stub_sign test_client (str_encode "{}") 1700000000000000123
         "gonka1provider" = inr signature
       /\ b64decode (str_encode signature) = Some raw
       /\ length raw = 64%nat
       /\ 1 <= int_from_bytes (skipn 32 raw) <= SECP256k1_order / 2.
Proof.
  split.
  - vm_compute. reflexivity.
  - apply (signature_is_low_s stub_sign stub_sign_format test_client
             (str_encode "{}") 1700000000000000123 "gonka1provider" 42).
    vm_compute. reflexivity.
Defined.

Lemma hybrid_timestamps_non_decreasing_witness :
  monotonic_clock (boot_world incomplete_settings failing_upstream)
  /\ exists ts w',
       hybrid_timestamps test_client 3 (boot_world incomplete_settings failing_upstream)
       = (inr ts, w')
       /\ length ts = 3%nat
       /\ StronglySorted Z.le ts
       /\ forall w2,
            perf_counter_ns w2
            = perf_counter_ns (boot_world incomplete_settings failing_upstream) ->
            perf_reads w2 = perf_reads (boot_world incomplete_settings failing_upstream) ->
            fst (hybrid_timestamps test_client 3 w2) = inr ts.
Proof.
  assert (Hclock : monotonic_clock (boot_world incomplete_settings failing_upstream))
    by (intros i j Hij; simpl; lia).
  split.
  - exact Hclock.
  - apply (hybrid_timestamps_non_decreasing test_client 3
             (boot_world incomplete_settings failing_upstream) Hclock).
Defined.

Lemma malformed_key_fails_when_signing_witness :
  malformed_key "0xnot-a-key" = true
  /\ exists self w' e,
       __init__ "0xnot-a-key" "gonka1requester" "https://node.example/v1/"
         "gonka1provider" 60%float (boot_world incomplete_settings failing_upstream)
       = (inr self, w')
       /\ private_key self = "0xnot-a-key"
       /\ (e = fromhex_error \/ exists msg, e = MalformedPointError msg)
       /\ forall P T A, _sign_payload stub_sign self P T A = inl e.
Proof.
  split.
  - vm_compute. reflexivity.
  - apply (malformed_key_fails_when_signing stub_sign "0xnot-a-key").
    vm_compute. reflexivity.
Defined.

(** C6 as the spec states it fails: a key that is not hexadecimal, and
    one that is a byte short, both get a client from [__init__]; the
    failure comes with the first [_sign_payload]. *)
Lemma malformed_key_survives_construction :
  malformed_key "0xnot-a-key" = true
  /\ malformed_key "c0ffee" = true
  /\ (exists self w',
        __init__ "0xnot-a-key" "gonka1requester" "https://node.example/v1/"
          "gonka1provider" 60%float (boot_world incomplete_settings failing_upstream)
        = (inr self, w')
        /\ _sign_payload stub_sign self (str_encode "{}") 1700000000000000123
             "gonka1provider"
           = inl fromhex_error)
  /\ (exists self w',
        __init__ "c0ffee" "gonka1requester" "https://node.example/v1/"
          "gonka1provider" 60%float (boot_world incomplete_settings failing_upstream)
        = (inr self, w')
        /\ _sign_payload stub_sign self (str_encode "{}") 1700000000000000123
             "gonka1provider"
           = inl (MalformedPointError "Invalid length of private key")).
Proof.
  split; [vm_compute; reflexivity|].
  split; [vm_compute; reflexivity|].
  split; eexists _, _; (split; [reflexivity | vm_compute; reflexivity]).
Qed.



Lemma unconfigured_chat_is_500_before_body_witness :
  let w := boot_world incomplete_settings failing_upstream in
  let req := mkRequest (Some "Bearer sk-test") (str_encode "{not json") in
  reachable stub_sign stub_dumps stub_dumps stub_parse stub_text w
  /\ gonka_provider_address (settings w) = ""
  /\ exists listing,
       chat_completions stub_sign stub_dumps stub_dumps stub_parse stub_text req w
       = (inl (HTTPException 500
                 ("Gonka configuration incomplete. Missing: " +:+ listing
                  +:+ ". GONKA_PROVIDER_ADDRESS is the Gonka provider address (bech32 format), which can be obtained from the provider or in Gonka documentation.")),
          w)
       /\ str_contains listing "GONKA_PROVIDER_ADDRESS" = true.
Proof.
  cbv zeta.
  assert (Hreach : reachable stub_sign stub_dumps stub_dumps stub_parse stub_text
                     (boot_world incomplete_settings failing_upstream))
    by (apply reachable_boot; reflexivity).
  split; [exact Hreach|].
  split; [reflexivity|].
  destruct (unconfigured_chat_is_500_before_body stub_sign stub_dumps stub_dumps
              stub_parse stub_text
              (boot_world incomplete_settings failing_upstream)
              (mkRequest (Some "Bearer sk-test") (str_encode "{not json"))
              (Some "sk-test") Hreach
              (or_intror (or_intror (or_intror eq_refl))))
    as (listing & Hchat & _ & _ & _ & Hprovider & _).
  exists listing. split; [exact Hchat|].
  apply Hprovider. reflexivity.
Defined.

Lemma verify_api_key_sound_witness :
  let w := boot_world complete_settings failing_upstream in
  let req := mkRequest (Some "Bearer sk-test") (str_encode "{}") in
  verify_api_key req None w = (inr true, w)
  /\ true = true
  /\ w = w
  /\ api_key (settings w) <> ""
  /\ (None = Some (api_key (settings w))
      \/ authorization req = Some (api_key (settings w))
      \/ authorization req = Some ("Bearer " +:+ api_key (settings w))).
Proof.
  cbv zeta. split; [reflexivity|].
  apply (verify_api_key_sound (mkRequest (Some "Bearer sk-test") (str_encode "{}")) None
           (boot_world complete_settings failing_upstream)
           (boot_world complete_settings failing_upstream) true).
  reflexivity.
Defined.

Lemma verify_api_key_complete_witness :
  let w := boot_world complete_settings failing_upstream in
  api_key (settings w) <> ""
  /\ verify_api_key (mkRequest (Some "sk-test") (str_encode "{}")) None w = (inr true, w).
Proof.
  cbv zeta. split; [discriminate|].
  apply (verify_api_key_complete (mkRequest (Some "sk-test") (str_encode "{}")) None
           (boot_world complete_settings failing_upstream)).
  - discriminate.
  - right. split; [reflexivity|]. right. split; reflexivity.
Defined.

Lemma rejected_request_has_no_effect_witness :
  let w := boot_world complete_settings failing_upstream in
  let req := mkRequest (Some "sk-wrong") (str_encode "{}") in
  let e := HTTPException 401 "Invalid API key" in
  fst (verify_api_key req None w) = inl e
  /\ post_chat_completions stub_sign stub_dumps stub_dumps stub_parse stub_text req None w
     = (inl e, w)
  /\ get_v1_models req None w = (inl e, w).
Proof.
  cbv zeta. split; [reflexivity|].
  destruct (rejected_request_has_no_effect stub_sign stub_dumps stub_dumps stub_parse stub_text
              (mkRequest (Some "sk-wrong") (str_encode "{}")) None
              (boot_world complete_settings failing_upstream)
              (HTTPException 401 "Invalid API key") eq_refl) as (Hchat & Hmodels & _).
  split; [exact Hchat | exact Hmodels].
Defined.

Lemma request_stream_relays_chunks_witness :
  let w := serving_world streaming_upstream in
  exists signature,
    _sign_payload stub_sign test_client (str_encode (stub_dumps (JObj [])))
      1700000000000000010 (provider_address test_client) = inr signature
    /\ 200 < 400
    /\ let outcome :=
         request_stream stub_sign stub_dumps stub_dumps stub_parse test_client
           "POST" "/chat/completions" None w in
       fst outcome = inr tt
       /\ yielded_chunks (trace (snd outcome)) = [str_encode "data: a"; str_encode "data: b"]
       /\ error_body_reads (trace (snd outcome)) = O.
Proof.
  cbv zeta. eexists. split; [vm_compute; reflexivity|].
  split; [lia|].
  eapply (request_stream_relays_chunks stub_sign stub_dumps stub_dumps stub_parse
            test_client "POST" "/chat/completions" None
            (serving_world streaming_upstream) _
            (mkHttpResponse 200 [str_encode "data: a"; str_encode "data: b"] None)).
  - vm_compute. reflexivity.
  - reflexivity.
  - simpl. lia.
Defined.


Lemma request_is_addressed_witness :
  let w := serving_world answering_upstream in
  exists signature,
    _sign_payload stub_sign test_client (str_encode (stub_dumps (JObj [])))
      1700000000000000010 (provider_address test_client) = inr signature
    /\ addressed_exchange test_client "POST" "/chat/completions" w
         (snd (request stub_sign stub_dumps stub_dumps stub_parse stub_text test_client
                 "POST" "/chat/completions" None w))
    /\ addressed_exchange test_client "POST" "/chat/completions" w
         (snd (request_stream stub_sign stub_dumps stub_dumps stub_parse test_client
                 "POST" "/chat/completions" None w)).
Proof.
  cbv zeta. eexists. split; [vm_compute; reflexivity|].
  eapply (request_is_addressed stub_sign stub_dumps stub_dumps stub_parse stub_text
            test_client "POST" "/chat/completions" None
            (serving_world answering_upstream) _).
  vm_compute. reflexivity.
Defined.

Lemma streaming_chat_defers_upstream_witness :
  let w := serving_world failing_upstream in
  let req := mkRequest (Some "Bearer sk-test") (str_encode stream_text) in
  let body_json := JObj [("stream", JBool true)] in
  json_loads_bytes stream_parse stub_text (body req) = inr body_json
  /\ exists events,
       chat_completions stub_sign stub_dumps stub_dumps stream_parse stub_text req w
       = (inr (StreamingResponse
                 (generate stub_sign stub_dumps stub_dumps stream_parse test_client
                    body_json)
                 "text/event-stream" sse_headers),
          add_events w events)
       /\ sent_requests events = [].
Proof.
  cbv zeta. split; [vm_compute; reflexivity|].
  refine (proj1 (streaming_chat_defers_upstream stub_sign stub_dumps stub_dumps
                   stream_parse stub_text
                   (mkRequest (Some "Bearer sk-test") (str_encode stream_text))
                   (serving_world failing_upstream) test_client
                   (JObj [("stream", JBool true)]) (JBool true) _ _ _ _)).
  - reflexivity.
  - vm_compute. reflexivity.
  - reflexivity.
  - reflexivity.
Defined.

Lemma streamed_chat_relays_upstream_witness :
  let w := serving_world streaming_upstream in
  let req := mkRequest (Some "Bearer sk-test") (str_encode stream_text) in
  exists generator w1,
    chat_completions stub_sign stub_dumps stub_dumps stream_parse stub_text req w
    = (inr (StreamingResponse generator "text/event-stream" sse_headers), w1)
    /\ sent_requests (trace w1) = sent_requests (trace w)
    /\ fst (generator w1) = inr tt
    /\ yielded_chunks (trace (snd (generator w1)))
       = yielded_chunks (trace w) ++ [str_encode "data: a"; str_encode "data: b"]
    /\ length (sent_requests (trace (snd (generator w1))))
       = S (length (sent_requests (trace w))).
Proof.
  cbv zeta.
  eapply (streamed_chat_relays_upstream stub_sign stub_dumps stub_dumps stream_parse stub_text
            (mkRequest (Some "Bearer sk-test") (str_encode stream_text))
            (serving_world streaming_upstream) test_client
            (JObj [("stream", JBool true)]) (JBool true) _
            (mkHttpResponse 200 [str_encode "data: a"; str_encode "data: b"] None)).
  - reflexivity.
  - vm_compute. reflexivity.
  - reflexivity.
  - reflexivity.
  - vm_compute. reflexivity.
  - reflexivity.
  - simpl. lia.
Defined.

Lemma buffered_chat_outcome_witness :
  let w := serving_world answering_upstream in
  let req := mkRequest (Some "Bearer sk-test") (str_encode "{}") in
  json_loads_bytes stub_parse stub_text (body req) = inr (JObj [])
  /\ fst (chat_completions stub_sign stub_dumps stub_dumps stub_parse stub_text req w)
     = inr (JSONResponse (JObj [])).
Proof.
  cbv zeta. split; [vm_compute; reflexivity|].
  eapply eq_trans.
  - eapply (buffered_chat_outcome stub_sign stub_dumps stub_dumps stub_parse stub_text
              (mkRequest (Some "Bearer sk-test") (str_encode "{}"))
              (serving_world answering_upstream) test_client (JObj []) (JBool false)).
    + reflexivity.
    + vm_compute. reflexivity.
    + reflexivity.
    + reflexivity.
  - vm_compute. reflexivity.
Defined.

Lemma bad_body_sends_nothing_witness :
  let w := serving_world failing_upstream in
  let req := mkRequest (Some "Bearer sk-test") (str_encode "{not json") in
  exists events,
    chat_completions stub_sign stub_dumps stub_dumps stub_parse stub_text req w
    = (inl (HTTPException 400 "Invalid JSON: Expecting value"), add_events w events)
    /\ sent_requests events = [].
Proof.
  cbv zeta.
  eapply (bad_body_sends_nothing stub_sign stub_dumps stub_dumps stub_parse stub_text
            (mkRequest (Some "Bearer sk-test") (str_encode "{not json"))
            (serving_world failing_upstream) test_client).
  - reflexivity.
  - intros fields. vm_compute. discriminate.
Defined.

Lemma chat_endpoint_failures_witness :
  let w := boot_world complete_settings failing_upstream in
  let req := mkRequest (Some "sk-wrong") (str_encode "{}") in
  let e := HTTPException 401 "Invalid API key" in
  fst (post_chat_completions stub_sign stub_dumps stub_dumps stub_parse stub_text req None w)
  = inl e
  /\ ((exists status detail,
         e = HTTPException status detail
         /\ (status = 400 \/ status = 401 \/ status = 500))
      \/ (e = AttributeError
          /\ exists v, json_loads_bytes stub_parse stub_text (body req) = inr v
                       /\ forall fields, v <> JObj fields)).
Proof.
  cbv zeta. split; [vm_compute; reflexivity|].
  apply (chat_endpoint_failures stub_sign stub_dumps stub_dumps stub_parse stub_text
           (mkRequest (Some "sk-wrong") (str_encode "{}")) None
           (boot_world complete_settings failing_upstream)).
  vm_compute. reflexivity.
Defined.

Lemma first_use_creates_client_witness :
  let w := boot_world complete_settings failing_upstream in
  configuration_complete (settings w) = true
  /\ exists client w1,
       get_gonka_client w = (inr client, w1)
       /\ gonka_client w1 = Some client
       /\ endpoint client = "https://node.example/v1".
Proof.
  cbv zeta. split; [reflexivity|].
  destruct (first_use_creates_client (boot_world complete_settings failing_upstream)
              eq_refl eq_refl) as (client & w1 & Hget & Hclient & _).
  exists client, w1. split; [exact Hget|]. split; [exact Hclient|].
  injection Hget as <- _. reflexivity.
Defined.

Lemma client_is_never_replaced_witness :
  let w := serving_world failing_upstream in
  get_gonka_client w = (inr test_client, w)
  /\ gonka_client (snd (lifespan stub_sign stub_dumps stub_dumps stub_parse stub_text w))
     = Some test_client.
Proof.
  cbv zeta.
  destruct (client_is_never_replaced stub_sign stub_dumps stub_dumps stub_parse stub_text
              (serving_world failing_upstream) test_client eq_refl)
    as (_ & Hget & Hlifespan & _).
  split; [exact Hget | exact Hlifespan].
Defined.

Lemma list_models_outcome_witness :
  let w :=
    with_available_models (boot_world complete_settings failing_upstream)
      (JArr [JObj [("id", JStr "m1")]; JObj [("name", JStr "m2")]]) in
  list_models w
  = (inr (JObj [("object", JStr "list");
                ("data", JArr [model_entry (JStr "m1"); model_entry (JStr "unknown")])]),
     w).
Proof.
  cbv zeta.
  apply (proj1 (list_models_outcome
                  (with_available_models (boot_world complete_settings failing_upstream)
                     (JArr [JObj [("id", JStr "m1")]; JObj [("name", JStr "m2")]]))
                  [JObj [("id", JStr "m1")]; JObj [("name", JStr "m2")]] eq_refl)
           [[("id", JStr "m1")]; [("name", JStr "m2")]] eq_refl).
Defined.

Lemma well_formed_key_signs_witness :
  String.length bare_key = 64%nat
  /\ private_key test_client = "0x" +:+ bare_key
  /\ private_key_scalar (private_key test_client) = inr 42
  /\ exists signature,
       _sign_payload stub_sign test_client (str_encode "{}") 1700000000000000123
         "gonka1provider" = inr signature
       /\ String.length signature = 88%nat.
Proof.
  split; [reflexivity|]. split; [reflexivity|].
  apply (well_formed_key_signs stub_sign stub_sign_format bare_key test_client
           (str_encode "{}") 1700000000000000123 "gonka1provider").
  - reflexivity.
  - reflexivity.
  - vm_compute. split; [discriminate | reflexivity].
  - right. reflexivity.
Defined.

Lemma successive_requests_timestamps_witness :
  let w := serving_world failing_upstream in
  let first := _prepare_request stub_sign stub_dumps test_client None w in
  let second := _prepare_request stub_sign stub_dumps test_client None (snd first) in
  exists payload_bytes headers1 headers2,
    fst first = inr (payload_bytes, headers1)
    /\ fst second = inr (payload_bytes, headers2)
    /\ headers1 !! "X-Timestamp" <> headers2 !! "X-Timestamp".
Proof.
  cbv zeta.
  destruct (successive_requests_timestamps stub_sign stub_dumps stub_sign_format
              test_client None (serving_world failing_upstream) 42 test_key_scalar)
    as (payload_bytes & headers1 & headers2 & Hfirst & Hsecond & Hsame & _).
  exists payload_bytes, headers1, headers2.
  split; [exact Hfirst|]. split; [exact Hsecond|].
  intros H. apply Hsame in H. vm_compute in H. discriminate H.
Defined.
